(** * Input-dependency analyzer: dependency lattice, non-deterministic
      reflecting block analyser, module analysis cache, library-function
      table and statistics report.

    The development is a shallow embedding of
      - Analysis/CachedInputDependencyAnalysis.cpp,
      - NonDeterministicReflectingBasicBlockAnaliser.cpp,
      - LibraryInfoManager.cpp,
      - Analysis/InputDependencyStatistics.cpp.
    Pointers are identities ([positive]) or addresses ([N], 0 being
    [nullptr]); hash maps are [gmap]s, hash sets are [gset]s; [unsigned]
    counters are [Z] with the wrap-around at 2^32 written out. *)

From Stdlib Require Import ZArith Lia.
From stdpp Require Import base gmap sets list strings.

(** ** The host program representation (consumed, not reimplemented) *)

Module llvm.

(** [llvm::Value*]: the identity of a value. Formal arguments are values. *)
Abbreviation Value := positive.
Abbreviation Argument := Value.

(** [llvm::Function*]: an address, [nullptr] being 0. *)
Abbreviation Function := N.
Definition nullptr : Function := 0%N.

(** [llvm::BasicBlock]: [getParent()] is the owning function or [nullptr]. *)
Record BasicBlock := mkBasicBlock {
  bb_id : positive;
  bb_getParent : Function
}.

(** [llvm::Instruction]: [getParent()] is the owning block, [None] for a
    null block pointer. *)
Record Instruction := mkInstruction {
  inst_id : positive;
  inst_getParent : option BasicBlock
}.

#[global] Instance BasicBlock_eq_dec : EqDecision BasicBlock.
Proof. solve_decision. Defined.

#[global] Instance Instruction_eq_dec : EqDecision Instruction.
Proof. solve_decision. Defined.

#[global] Instance BasicBlock_countable : Countable BasicBlock.
Proof.
  refine (inj_countable' (λ b, (bb_id b, bb_getParent b))
                         (λ p, mkBasicBlock p.1 p.2) _).
  by intros [].
Defined.

#[global] Instance Instruction_countable : Countable Instruction.
Proof.
  refine (inj_countable' (λ i, (inst_id i, inst_getParent i))
                         (λ p, mkInstruction p.1 p.2) _).
  by intros [].
Defined.

End llvm.

(** ** The dependency lattice *)

Module DepInfo.
Import llvm.

(** Modelled from the spec: DependencyInfo.h is not among the sources.
    Section 3 of the specification gives the lattice element as one of
    four cases; the two refinable cases carry the set they depend on.
    Formal arguments and named external values are both program values,
    so one carrier serves both sets and mixed kinds can be unioned. *)
Inductive DepInfo :=
| INPUT_INDEP
| INPUT_ARG_DEP (deps : gset Value)
| VALUE_DEP (deps : gset Value)
| INPUT_DEP.

#[global] Instance DepInfo_eq_dec : EqDecision DepInfo.
Proof. solve_decision. Defined.

Definition isInputIndep (d : DepInfo) : bool :=
  match d with INPUT_INDEP => true | _ => false end.

Definition isInputDep (d : DepInfo) : bool :=
  match d with INPUT_DEP => true | _ => false end.

Definition isInputArgumentDep (d : DepInfo) : bool :=
  match d with INPUT_ARG_DEP _ => true | _ => false end.

Definition isValueDep (d : DepInfo) : bool :=
  match d with VALUE_DEP _ => true | _ => false end.

Definition getArgumentDependencies (d : DepInfo) : gset Argument :=
  match d with INPUT_ARG_DEP A => A | _ => ∅ end.

Definition getValueDependencies (d : DepInfo) : gset Value :=
  match d with VALUE_DEP A => A | _ => ∅ end.

(** Modelled from the spec: the merge of section 3. [INPUT_DEP] absorbs,
    [INPUT_INDEP] is the identity, equal kinds union their sets, and mixed
    kinds take the larger kind (in the order the specification lists the
    cases, bottom to top) with the two sets unioned. *)
Definition mergeDependencies (x y : DepInfo) : DepInfo :=
  match x, y with
  | INPUT_DEP, _ | _, INPUT_DEP => INPUT_DEP
  | INPUT_INDEP, d | d, INPUT_INDEP => d
  | INPUT_ARG_DEP A, INPUT_ARG_DEP B => INPUT_ARG_DEP (A ∪ B)
  | VALUE_DEP A, VALUE_DEP B => VALUE_DEP (A ∪ B)
  | INPUT_ARG_DEP A, VALUE_DEP B | VALUE_DEP A, INPUT_ARG_DEP B =>
      VALUE_DEP (A ∪ B)
  end.

(** The lattice order induced by the merge. *)
Definition le (x y : DepInfo) : Prop := mergeDependencies x y = y.

(** The data-model invariant of section 3: the set of a refinable case is
    not empty. *)
Definition wf (d : DepInfo) : Prop :=
  match d with
  | INPUT_ARG_DEP A | VALUE_DEP A => A ≠ ∅
  | _ => True
  end.

(** The four lattice cases, as a predicate on the value a merge returns. *)
Definition four_cases (d : DepInfo) : Prop :=
  d = INPUT_INDEP ∨ (∃ A, d = INPUT_ARG_DEP A) ∨ (∃ A, d = VALUE_DEP A)
  ∨ d = INPUT_DEP.

End DepInfo.


(** ** Dependency of a possibly aggregate value *)

Module ValueDepInfo.
Import llvm.

(** Modelled from the spec: ValueDepInfo.h is not among the sources.
    Section 3 describes the composite value dependency as a wrapper of a
    dependency plus, for aggregates, a mapping from element selector to
    dependency (empty for a scalar). *)
Record ValueDepInfo := mkValueDepInfo {
  getValueDep : DepInfo.DepInfo;
  getCompositeValueDeps : gmap N DepInfo.DepInfo
}.

(** Modelled from the spec: the queries of the wrapper are those of the
    wrapped dependency. *)
Definition isInputDep (v : ValueDepInfo) : bool :=
  DepInfo.isInputDep (getValueDep v).

Definition isInputIndep (v : ValueDepInfo) : bool :=
  DepInfo.isInputIndep (getValueDep v).

(** Modelled from the spec: [mergeDependencies(const DepInfo&)] merges into
    the wrapped dependency. The elements are left to the composite-wide
    operations below: where the analyser folds a dependency into every
    element ([addOnDependencyInfo(const ValueDepInfo&)]) it builds a
    composite of the same shape with [updateCompositeValueDep] and merges
    the two composites. *)
Definition mergeDependencies_DepInfo (v : ValueDepInfo) (d : DepInfo.DepInfo)
  : ValueDepInfo :=
  mkValueDepInfo (DepInfo.mergeDependencies (getValueDep v) d)
                 (getCompositeValueDeps v).

(** Modelled from the spec: [updateCompositeValueDep(const DepInfo&)] sets
    the wrapped dependency and every element to the given dependency. *)
Definition updateCompositeValueDep (v : ValueDepInfo) (d : DepInfo.DepInfo)
  : ValueDepInfo :=
  mkValueDepInfo d ((λ _, d) <$> getCompositeValueDeps v).

(** Modelled from the spec: [mergeDependencies(const ValueDepInfo&)] merges
    the wrapped dependencies and, selector by selector, the elements. *)
Definition mergeDependencies (v w : ValueDepInfo) : ValueDepInfo :=
  mkValueDepInfo
    (DepInfo.mergeDependencies (getValueDep v) (getValueDep w))
    (union_with (λ a b, Some (DepInfo.mergeDependencies a b))
                (getCompositeValueDeps v) (getCompositeValueDeps w)).

(** The order on composite dependencies: the wrapped dependency and every
    element grow. *)
Definition le (v w : ValueDepInfo) : Prop :=
  DepInfo.le (getValueDep v) (getValueDep w)
  ∧ ∀ k e, getCompositeValueDeps v !! k = Some e →
      ∃ e', getCompositeValueDeps w !! k = Some e' ∧ DepInfo.le e e'.

(** A composite dependency carries a context when the wrapped dependency
    and every element are above it. *)
Definition carries (ctx : DepInfo.DepInfo) (v : ValueDepInfo) : Prop :=
  DepInfo.le ctx (getValueDep v)
  ∧ ∀ k e, getCompositeValueDeps v !! k = Some e → DepInfo.le ctx e.

End ValueDepInfo.

(** ** Promotion of refinable tags (the finalize passes) *)

Module Utils.
Import llvm DepInfo.

(** [DependencyAnaliser::ArgumentDependenciesMap] (DependencyAnaliser.h):
    the confirmed argument dependencies, keyed by formal argument. *)
Abbreviation ArgumentDependenciesMap := (gmap Argument DepInfo).

(** The confirmed global dependencies, keyed by global value. *)
Abbreviation GlobalVariableDependencyMap := (gmap Value DepInfo).

(** Modelled from the spec: Utils.cpp is not among the sources. Section
    4.3: the set of a tag intersects the confirmed arguments. *)
Definition haveIntersection (dependentArgs : ArgumentDependenciesMap)
    (args : gset Argument) : bool :=
  bool_decide (dom dependentArgs ∩ args ≠ ∅).

(** Modelled from the spec: section 4.3, [finalizeResults] promotes an
    [INPUT_ARG_DEP] tag whose set intersects the confirmed arguments. *)
Definition finalizeArgumentDependencies
    (dependentArgs : ArgumentDependenciesMap) (d : DepInfo) : DepInfo :=
  match d with
  | INPUT_ARG_DEP A =>
      if haveIntersection dependentArgs A then INPUT_DEP else d
  | _ => d
  end.

(** Modelled from the spec: [finalizeValueDependencies] is not among the
    sources. Section 4.3: the same promotion for a [VALUE_DEP] tag against
    the confirmed global dependencies. *)
Definition finalizeValueDependencies
    (globalsDeps : GlobalVariableDependencyMap) (d : DepInfo) : DepInfo :=
  match d with
  | VALUE_DEP A =>
      if bool_decide (dom globalsDeps ∩ A ≠ ∅) then INPUT_DEP else d
  | _ => d
  end.

End Utils.


(** ** The reflecting block analyser (the base class) *)

Module ReflectingBasicBlockAnaliser.
Import llvm DepInfo Utils.

(** Modelled from the spec: ReflectingBasicBlockAnaliser.h is not among
    the sources. Section 4.3 gives the state of a block analyser as the
    two dependency maps; [m_is_inputDep] and the return-value dependency
    are the members the derived class reads and writes. *)
Record analiser := mkAnaliser {
  m_is_inputDep : bool;
  m_valueDependencies : gmap Value ValueDepInfo.ValueDepInfo;
  m_inputDependentInstrs : gmap Instruction DepInfo;
  m_returnValueDependencies : ValueDepInfo.ValueDepInfo
}.

Definition set_is_inputDep (b : bool) (a : analiser) : analiser :=
  mkAnaliser b (m_valueDependencies a) (m_inputDependentInstrs a)
             (m_returnValueDependencies a).

(** Modelled from the spec: promotion of every component of a composite
    dependency. *)
Definition finalizeValueDepInfo (f : DepInfo → DepInfo)
    (v : ValueDepInfo.ValueDepInfo) : ValueDepInfo.ValueDepInfo :=
  ValueDepInfo.mkValueDepInfo (f (ValueDepInfo.getValueDep v))
                              (f <$> ValueDepInfo.getCompositeValueDeps v).

(** Modelled from the spec: [ReflectingBasicBlockAnaliser::finalizeResults]
    is not among the sources. Section 4.3: a pass that promotes every
    stored [INPUT_ARG_DEP] tag whose set intersects the confirmed
    arguments. *)
Definition finalizeResults (a : analiser)
    (dependentArgs : ArgumentDependenciesMap) : analiser :=
  let f := finalizeArgumentDependencies dependentArgs in
  mkAnaliser (m_is_inputDep a)
             (finalizeValueDepInfo f <$> m_valueDependencies a)
             (f <$> m_inputDependentInstrs a)
             (finalizeValueDepInfo f (m_returnValueDependencies a)).

(** Modelled from the spec: [BasicBlockAnalysisResult::finalizeGlobals] is
    not among the sources. Section 4.3: the same promotion for stored
    [VALUE_DEP] tags against the confirmed global dependencies. *)
Definition finalizeGlobals (a : analiser)
    (globalsDeps : GlobalVariableDependencyMap) : analiser :=
  let f := finalizeValueDependencies globalsDeps in
  mkAnaliser (m_is_inputDep a)
             (finalizeValueDepInfo f <$> m_valueDependencies a)
             (f <$> m_inputDependentInstrs a)
             (finalizeValueDepInfo f (m_returnValueDependencies a)).

(** Modelled from the spec: the store of section 4.3. A write of a value
    dependency replaces the entry of the value in the value map. *)
Definition updateValueDependencies (a : analiser) (value : Value)
    (info : ValueDepInfo.ValueDepInfo) (update_aliases : bool) : analiser :=
  mkAnaliser (m_is_inputDep a) (<[value := info]> (m_valueDependencies a))
             (m_inputDependentInstrs a) (m_returnValueDependencies a).

(** Modelled from the spec: a write of an instruction dependency replaces
    the entry of the instruction in the instruction map. *)
Definition updateInstructionDependencies (a : analiser) (instr : Instruction)
    (info : DepInfo) : analiser :=
  mkAnaliser (m_is_inputDep a) (m_valueDependencies a)
             (<[instr := info]> (m_inputDependentInstrs a))
             (m_returnValueDependencies a).

End ReflectingBasicBlockAnaliser.

(** ** The non-deterministic reflecting block analyser *)

Module NonDeterministicReflectingBasicBlockAnaliser.
Import llvm DepInfo Utils.

Abbreviation Reflecting := ReflectingBasicBlockAnaliser.analiser.
Abbreviation ValueDepInfo := ValueDepInfo.ValueDepInfo.

(** The derived object: the base-class part and the ambient context
    [m_nonDeterministicDeps]. *)
Record analiser := mkAnaliser {
  base : Reflecting;
  m_nonDeterministicDeps : DepInfo
}.

Definition getBlockDependencies (a : analiser) : DepInfo :=
  m_nonDeterministicDeps a.

(** [addOnDependencyInfo(const DepInfo&)] *)
Definition addOnDependencyInfo (a : analiser) (info : DepInfo) : DepInfo :=
  if isInputDep info then info
  else mergeDependencies info (m_nonDeterministicDeps a).

(** [addOnDependencyInfo(const ValueDepInfo&)] *)
Definition addOnDependencyInfo_ValueDepInfo (a : analiser)
    (info : ValueDepInfo) : ValueDepInfo :=
  let newInfo := info in
  let nonDetDeps_info :=
    ValueDepInfo.updateCompositeValueDep newInfo (m_nonDeterministicDeps a) in
  ValueDepInfo.mergeDependencies newInfo nonDetDeps_info.

Section BaseClass.

(** The methods of the base class that the overrides call. They are not
    among the sources: a read returns its result and the base-class part
    after the call (the methods are not const), a write returns the
    base-class part after the call. A value read may return a dependency
    that is not defined ([isDefined()] is false): that is [None]. *)
Variable Reflecting_getInstructionDependencies :
  Reflecting → Instruction → DepInfo * Reflecting.
Variable Reflecting_getValueDependencies :
  Reflecting → Value → option ValueDepInfo * Reflecting.
Variable Reflecting_getCompositeValueDependencies :
  Reflecting → Value → Instruction → option ValueDepInfo * Reflecting.
Variable Reflecting_getArgumentValueDependecnies :
  Reflecting → Value → ValueDepInfo * Reflecting.
Variable Reflecting_updateValueDependencies_DepInfo :
  Reflecting → Value → DepInfo → bool → Reflecting.
Variable Reflecting_updateValueDependencies :
  Reflecting → Value → ValueDepInfo → bool → Reflecting.
Variable Reflecting_updateCompositeValueDependencies :
  Reflecting → Value → Instruction → ValueDepInfo → Reflecting.
Variable Reflecting_updateInstructionDependencies :
  Reflecting → Instruction → DepInfo → Reflecting.
Variable Reflecting_updateReturnValueDependencies :
  Reflecting → ValueDepInfo → Reflecting.
Variable Reflecting_finalizeResults :
  Reflecting → ArgumentDependenciesMap → Reflecting.
Variable BasicBlockAnalysisResult_finalizeGlobals :
  Reflecting → GlobalVariableDependencyMap → Reflecting.

Definition finalizeResults (a : analiser)
    (dependentArgs : ArgumentDependenciesMap) : analiser :=
  let b := Reflecting_finalizeResults (base a) dependentArgs in
  let nonDet := m_nonDeterministicDeps a in
  let b :=
    if isInputDep nonDet
    then ReflectingBasicBlockAnaliser.set_is_inputDep true b else b in
  let b :=
    if isInputArgumentDep nonDet
       && haveIntersection dependentArgs (getArgumentDependencies nonDet)
    then ReflectingBasicBlockAnaliser.set_is_inputDep true b else b in
  mkAnaliser b nonDet.

Definition finalizeGlobals (a : analiser)
    (globalsDeps : GlobalVariableDependencyMap) : analiser :=
  let b := BasicBlockAnalysisResult_finalizeGlobals (base a) globalsDeps in
  let nonDet := m_nonDeterministicDeps a in
  if negb (isValueDep nonDet)
     && bool_decide (getValueDependencies nonDet = ∅)
  then mkAnaliser b nonDet
  else
    let nonDet' := finalizeValueDependencies globalsDeps nonDet in
    mkAnaliser
      (ReflectingBasicBlockAnaliser.set_is_inputDep
         (ReflectingBasicBlockAnaliser.m_is_inputDep b || isInputDep nonDet')
         b)
      nonDet'.

Definition getInstructionDependencies (a : analiser) (instr : Instruction)
  : DepInfo * analiser :=
  let '(depInfo, b) := Reflecting_getInstructionDependencies (base a) instr in
  let a' := mkAnaliser b (m_nonDeterministicDeps a) in
  if isInputDep depInfo then (depInfo, a')
  else (mergeDependencies depInfo (m_nonDeterministicDeps a), a').

Definition getValueDependencies (a : analiser) (value : Value)
  : option ValueDepInfo * analiser :=
  let '(r, b) := Reflecting_getValueDependencies (base a) value in
  let a' := mkAnaliser b (m_nonDeterministicDeps a) in
  match r with
  | None => (None, a')
  | Some depInfo =>
      if ValueDepInfo.isInputDep depInfo then (Some depInfo, a')
      else (Some (ValueDepInfo.mergeDependencies_DepInfo depInfo
                    (m_nonDeterministicDeps a)), a')
  end.

Definition getCompositeValueDependencies (a : analiser) (value : Value)
    (element_instr : Instruction) : option ValueDepInfo * analiser :=
  let '(r, b) :=
    Reflecting_getCompositeValueDependencies (base a) value element_instr in
  let a' := mkAnaliser b (m_nonDeterministicDeps a) in
  match r with
  | None => (None, a')
  | Some depInfo =>
      if ValueDepInfo.isInputDep depInfo then (Some depInfo, a')
      else (Some (ValueDepInfo.mergeDependencies_DepInfo depInfo
                    (m_nonDeterministicDeps a)), a')
  end.

(** [updateValueDependencies(value, const DepInfo&, update_aliases)] *)
Definition updateValueDependencies_DepInfo (a : analiser) (value : Value)
    (info : DepInfo) (update_aliases : bool) : analiser :=
  mkAnaliser
    (Reflecting_updateValueDependencies_DepInfo (base a) value info
       update_aliases)
    (m_nonDeterministicDeps a).

(** [updateValueDependencies(value, const ValueDepInfo&, update_aliases)] *)
Definition updateValueDependencies (a : analiser) (value : Value)
    (info : ValueDepInfo) (update_aliases : bool) : analiser :=
  mkAnaliser
    (Reflecting_updateValueDependencies (base a) value info update_aliases)
    (m_nonDeterministicDeps a).

Definition updateCompositeValueDependencies (a : analiser) (value : Value)
    (elInstr : Instruction) (info : ValueDepInfo) : analiser :=
  mkAnaliser
    (Reflecting_updateCompositeValueDependencies (base a) value elInstr
       (addOnDependencyInfo_ValueDepInfo a info))
    (m_nonDeterministicDeps a).

Definition updateInstructionDependencies (a : analiser)
    (instr : Instruction) (info : DepInfo) : analiser :=
  mkAnaliser
    (Reflecting_updateInstructionDependencies (base a) instr
       (addOnDependencyInfo a info))
    (m_nonDeterministicDeps a).

Definition updateReturnValueDependencies (a : analiser)
    (info : ValueDepInfo) : analiser :=
  mkAnaliser
    (Reflecting_updateReturnValueDependencies (base a)
       (addOnDependencyInfo_ValueDepInfo a info))
    (m_nonDeterministicDeps a).

Definition getArgumentValueDependecnies (a : analiser) (argVal : Value)
  : ValueDepInfo * analiser :=
  let '(depInfo, b) :=
    Reflecting_getArgumentValueDependecnies (base a) argVal in
  let a' := mkAnaliser b (m_nonDeterministicDeps a) in
  if ValueDepInfo.isInputIndep depInfo then (depInfo, a')
  else (addOnDependencyInfo_ValueDepInfo a depInfo, a').

End BaseClass.

(** The reads as section 4.3 words them: the stored value merged with the
    ambient context, with no case set apart. *)
Definition naive_read (ctx stored : DepInfo) : DepInfo :=
  mergeDependencies stored ctx.

Definition naive_read_ValueDepInfo (ctx : DepInfo) (stored : ValueDepInfo)
  : ValueDepInfo :=
  ValueDepInfo.mergeDependencies_DepInfo stored ctx.

(** The order on analysers: every stored dependency, the return-value
    dependency, the ambient context and the mark of the block grow. *)
Definition analiser_le (a a' : analiser) : Prop :=
  (∀ i d,
     ReflectingBasicBlockAnaliser.m_inputDependentInstrs (base a) !! i
     = Some d →
     ∃ d', ReflectingBasicBlockAnaliser.m_inputDependentInstrs (base a') !! i
           = Some d' ∧ DepInfo.le d d')
  ∧ (∀ v d,
       ReflectingBasicBlockAnaliser.m_valueDependencies (base a) !! v
       = Some d →
       ∃ d', ReflectingBasicBlockAnaliser.m_valueDependencies (base a') !! v
             = Some d' ∧ ValueDepInfo.le d d')
  ∧ ValueDepInfo.le
      (ReflectingBasicBlockAnaliser.m_returnValueDependencies (base a))
      (ReflectingBasicBlockAnaliser.m_returnValueDependencies (base a'))
  ∧ DepInfo.le (m_nonDeterministicDeps a) (m_nonDeterministicDeps a')
  ∧ (ReflectingBasicBlockAnaliser.m_is_inputDep (base a) = true →
     ReflectingBasicBlockAnaliser.m_is_inputDep (base a') = true).

(** The dependency a read assigns to an instruction (the stored one merged
    with the ambient context) grows. *)
Definition assigned_le (a a' : analiser) : Prop :=
  ∀ i d,
    ReflectingBasicBlockAnaliser.m_inputDependentInstrs (base a) !! i
    = Some d →
    ∃ d', ReflectingBasicBlockAnaliser.m_inputDependentInstrs (base a') !! i
          = Some d'
          ∧ DepInfo.le (naive_read (m_nonDeterministicDeps a) d)
                       (naive_read (m_nonDeterministicDeps a') d').

End NonDeterministicReflectingBasicBlockAnaliser.


(** ** Outcomes of fallible code *)

(** A call returns, dereferences a null pointer, or fails an [assert]. *)
Inductive outcome (A : Type) : Type :=
| Ret (a : A)
| NullDereference
| AssertionFailure.

Arguments Ret {A} a.
Arguments NullDereference {A}.
Arguments AssertionFailure {A}.

#[global] Instance outcome_bind : MBind outcome := λ A B k o,
  match o with
  | Ret a => k a
  | NullDereference => NullDereference
  | AssertionFailure => AssertionFailure
  end.

(** [unsigned] arithmetic wraps at 2^32. *)
Definition wrap32 (z : Z) : Z := z mod 2 ^ 32.

(** ** The interface of a function analysis result *)

Module InputDependencyResult.
Import llvm.

(** The virtual interface the cache and the statistics call, as the
    answers of one result object. *)
Record InputDependencyResult := mkResult {
  isInputDependent : Instruction → bool;
  isInputDependentBlock : BasicBlock → bool;
  isInputDepFunction : bool;
  get_input_dep_count : Z;
  get_input_indep_count : Z;
  get_input_unknowns_count : Z
}.

(** [InputDepResType]: a shared pointer to a result, [None] being the null
    pointer. *)
Abbreviation InputDepResType := (option InputDependencyResult).

(** [handle->method(...)] *)
Definition deref {A : Type} (handle : InputDepResType)
    (method : InputDependencyResult → A) : outcome A :=
  match handle with
  | Some r => Ret (method r)
  | None => NullDereference
  end.

End InputDependencyResult.

(** ** The module analysis cache *)

Module CachedInputDependencyAnalysis.
Import llvm InputDependencyResult.

(** [m_functionAnalisers] *)
Abbreviation FunctionAnalisers := (gmap Function InputDepResType).

(** [isInputDependent] over a function and an instruction *)
Definition isInputDependent (m_functionAnalisers : FunctionAnalisers)
    (F : Function) (instr : Instruction) : outcome bool :=
  match m_functionAnalisers !! F with
  | None => Ret false
  | Some pos_second =>
      deref pos_second (λ r, InputDependencyResult.isInputDependent r instr)
  end.

(** [isInputDependent] over an instruction alone *)
Definition isInputDependent_Instruction
    (m_functionAnalisers : FunctionAnalisers) (instr : Instruction)
  : outcome bool :=
  match inst_getParent instr with
  | None => NullDereference
  | Some block =>
      let F := bb_getParent block in
      if decide (F = nullptr) then AssertionFailure
      else isInputDependent m_functionAnalisers F instr
  end.

(** [isInputDependent] over a basic block *)
Definition isInputDependent_BasicBlock
    (m_functionAnalisers : FunctionAnalisers) (block : BasicBlock)
  : outcome bool :=
  let F := bb_getParent block in
  match m_functionAnalisers !! F with
  | None => Ret false
  | Some pos_second =>
      deref pos_second (λ r, isInputDependentBlock r block)
  end.

Definition getAnalysisInfo (m_functionAnalisers : FunctionAnalisers)
    (F : Function) : InputDepResType :=
  match m_functionAnalisers !! F with
  | None => None
  | Some pos_second => pos_second
  end.

(** The result and the cache after the call. *)
Definition insertAnalysisInfo (m_functionAnalisers : FunctionAnalisers)
    (F : Function) (analysis_info : InputDepResType)
  : bool * FunctionAnalisers :=
  match m_functionAnalisers !! F with
  | Some _ => (false, m_functionAnalisers)
  | None => (true, <[F := analysis_info]> m_functionAnalisers)
  end.

Section Run.

(** [Utils::isLibraryFunction(&F, m_module)] and the result object that
    [new CachedFunctionAnalysisResult(&F)] followed by [analyze()] builds:
    both are outside the sources. *)
Variable isLibraryFunction : Function → bool.
Variable analyze : Function → InputDependencyResult.

(** The loop of [run()] over the functions of the module. Next to the
    cache it keeps the log of the summaries it has constructed, the last
    one first. *)
Fixpoint run_loop (functions : list Function)
    (m_functionAnalisers : FunctionAnalisers)
    (created : list (Function * InputDependencyResult))
  : outcome (FunctionAnalisers * list (Function * InputDependencyResult)) :=
  match functions with
  | [] => Ret (m_functionAnalisers, created)
  | F :: rest =>
      if isLibraryFunction F then run_loop rest m_functionAnalisers created
      else
        let cached_function := analyze F in
        let created := (F, cached_function) :: created in
        match m_functionAnalisers !! F with
        | Some _ => AssertionFailure
        | None =>
            run_loop rest (<[F := Some cached_function]> m_functionAnalisers)
                     created
        end
  end.

Definition run (m_module : list Function)
    (m_functionAnalisers : FunctionAnalisers)
  : outcome (FunctionAnalisers * list (Function * InputDependencyResult)) :=
  run_loop m_module m_functionAnalisers [].

End Run.

End CachedInputDependencyAnalysis.

(** ** The library-function table *)

Module LibFunctionInfo.
Import llvm.

(** Modelled from the spec: LibFunctionInfo.h is not among the sources.
    Section 3: per external symbol name, a resolved flag, the
    return-dependency formula and the formula of each out-argument; the
    symbol it was resolved against is kept with it. *)
Record LibFunctionInfo := mkLibFunctionInfo {
  getName : string;
  isResolved : bool;
  resolvedFunction : option Function;
  getReturnDependency : DepInfo.DepInfo;
  getArgumentDependencies : gmap N DepInfo.DepInfo
}.

(** Modelled from the spec: [resolve(F)] binds the model to the symbol and
    sets the resolved flag. *)
Definition resolve (F : Function) (info : LibFunctionInfo)
  : LibFunctionInfo :=
  mkLibFunctionInfo (getName info) true (Some F) (getReturnDependency info)
                    (getArgumentDependencies info).

End LibFunctionInfo.

Module LibraryInfoManager.
Import llvm LibFunctionInfo.

(** [m_libraryInfo] *)
Abbreviation LibraryInfo := (gmap string LibFunctionInfo).

Definition hasLibFunctionInfo (m_libraryInfo : LibraryInfo)
    (funcName : string) : bool :=
  bool_decide (is_Some (m_libraryInfo !! funcName)).

Definition getLibFunctionInfo (m_libraryInfo : LibraryInfo)
    (funcName : string) : outcome LibFunctionInfo :=
  match m_libraryInfo !! funcName with
  | None => AssertionFailure
  | Some pos_second => Ret pos_second
  end.

(** The table after the call: [resolve] acts on the entry in place. *)
Definition resolveLibFunctionInfo (m_libraryInfo : LibraryInfo)
    (F : Function) (demangledName : string) : outcome LibraryInfo :=
  libF ← getLibFunctionInfo m_libraryInfo demangledName;
  if isResolved libF then Ret m_libraryInfo
  else Ret (<[demangledName := resolve F libF]> m_libraryInfo).

(** [m_libraryInfo.emplace(funcInfo.getName(), funcInfo)]: an element is
    inserted only when the table has no element with that key. *)
Definition addLibFunctionInfo (m_libraryInfo : LibraryInfo)
    (funcInfo : LibFunctionInfo) : LibraryInfo :=
  match m_libraryInfo !! getName funcInfo with
  | Some _ => m_libraryInfo
  | None => <[getName funcInfo := funcInfo]> m_libraryInfo
  end.

(** A collector-driven setup hands its entries, in order, to
    [addLibFunctionInfo]. *)
Definition collect (entries : list LibFunctionInfo)
    (m_libraryInfo : LibraryInfo) : LibraryInfo :=
  foldl addLibFunctionInfo m_libraryInfo entries.

Section Setup.

(** The entries that [CLibraryInfo::setup], [STLStringInfo::setup] and,
    when a configuration file is set, [LibraryInfoFromConfigFile::setup]
    hand to the collector: they are outside the sources. [None] stands for
    [has_config_file()] being false. *)
Variable CLibraryInfo_entries : list LibFunctionInfo.
Variable STLStringInfo_entries : list LibFunctionInfo.
Variable config_file_entries : option (list LibFunctionInfo).

(** The table once the two built-in libraries are registered. *)
Definition setup_builtin (m_libraryInfo : LibraryInfo) : LibraryInfo :=
  collect STLStringInfo_entries (collect CLibraryInfo_entries m_libraryInfo).

Definition setup (m_libraryInfo : LibraryInfo) : LibraryInfo :=
  let m := setup_builtin m_libraryInfo in
  match config_file_entries with
  | Some entries => collect entries m
  | None => m
  end.

End Setup.

End LibraryInfoManager.


(** ** The statistics report *)

Module InputDependencyStatistics.
Import llvm InputDependencyResult.
#[local] Open Scope Z_scope.

(** A value written to the report: an [unsigned] or a vector of strings. *)
Inductive stat_value :=
| Unsigned (n : Z)
| Strings (l : list string).

(** One written entry: the stats type name in force, the name of the
    reported object, the key and the value. *)
Record entry := mkEntry {
  entry_stats_type : option string;
  entry_name : string;
  entry_key : string;
  entry_value : stat_value
}.

(** The [Statistics] base class is outside the sources: its state is the
    stats type name in force and the entries written so far, in order. *)
Record Statistics := mkStatistics {
  m_stats_type_name : option string;
  m_entries : list entry
}.

Definition setStatsTypeName (name : string) (st : Statistics) : Statistics :=
  mkStatistics (Some name) (m_entries st).

Definition write_entry (st : Statistics) (name key : string)
    (value : stat_value) : Statistics :=
  mkStatistics (m_stats_type_name st)
    (m_entries st ++ [mkEntry (m_stats_type_name st) name key value]).

Record inputdep_data := mkInputdepData {
  name : string;
  all_instrs_count : Z;
  input_dep_instrs_count : Z;
  inputdep_functions_count : Z;
  inputdep_functions : list string
}.

Definition report_inputdep_data (st : Statistics) (data : inputdep_data)
  : Statistics :=
  let st := write_entry st (name data) "NumOfInst"
                        (Unsigned (all_instrs_count data)) in
  let st := write_entry st (name data) "NumOfInDepInst"
                        (Unsigned (input_dep_instrs_count data)) in
  let st := write_entry st (name data) "NumOfInDepFuncs"
                        (Unsigned (inputdep_functions_count data)) in
  write_entry st (name data) "InputDepFuncs"
              (Strings (inputdep_functions data)).

(** The mathematical sum of the input-independent instruction counts of
    the results a list of entries of the analysis info holds. *)
Definition sum_input_indep_count
    (entries : list (Function * InputDepResType)) : Z :=
  foldr (λ e acc, from_option get_input_indep_count 0 e.2 + acc) 0 entries.

Section Module.

(** The host module: its name, and for each function its name and its
    basic blocks, each given by its instruction list. *)
Variable module_getName : string.
Variable Function_getName : Function → string.
Variable Function_blocks : Function → list (list Instruction).

Definition get_function_instrs_count (F : Function) : Z :=
  foldl (λ count B, wrap32 (count + Z.of_nat (length B))) 0
        (Function_blocks F).

(** The locals of [reportInputDependencyInfo]. *)
Record locals := mkLocals {
  module_instructions : Z;
  module_inputdep_instrs : Z;
  inputdep_functions_count_l : Z;
  input_dep_functions : list string
}.

(** The body of the loop over the analysis info. *)
Definition loop_body (l : locals) (F_inputDep : Function * InputDepResType)
  : outcome locals :=
  let module_instructions :=
    wrap32 (module_instructions l
            + get_function_instrs_count F_inputDep.1) in
  indep ← deref F_inputDep.2 get_input_indep_count;
  let module_inputdep_instrs :=
    wrap32 (module_inputdep_instrs l + indep) in
  is_dep ← deref F_inputDep.2 isInputDepFunction;
  if is_dep : bool then
    Ret (mkLocals module_instructions module_inputdep_instrs
           (wrap32 (inputdep_functions_count_l l + 1))
           (input_dep_functions l ++ [Function_getName F_inputDep.1]))
  else
    Ret (mkLocals module_instructions module_inputdep_instrs
           (inputdep_functions_count_l l) (input_dep_functions l)).

Fixpoint loop (entries : list (Function * InputDepResType)) (l : locals)
  : outcome locals :=
  match entries with
  | [] => Ret l
  | F_inputDep :: rest => l' ← loop_body l F_inputDep; loop rest l'
  end.

(** The analysis info is iterated in the order of the container. *)
Definition reportInputDependencyInfo (st : Statistics)
    (m_IDA : gmap Function InputDepResType) : outcome Statistics :=
  let st := setStatsTypeName "input_dependency_info" st in
  l ← loop (map_to_list m_IDA) (mkLocals 0 0 0 []);
  Ret (report_inputdep_data st
         (mkInputdepData module_getName (module_instructions l)
            (module_inputdep_instrs l) (inputdep_functions_count_l l)
            (input_dep_functions l))).

End Module.

End InputDependencyStatistics.


(** ** The ratio and coverage reports of the statistics *)

Module InputDependencyStatisticsReports.
Import llvm InputDependencyResult InputDependencyStatistics.
#[local] Open Scope Z_scope.

(** A report returns, dereferences a null handle, fails an assertion, or
    divides by zero. *)
Inductive computation (A : Type) : Type :=
| Done (a : A)
| NullPointer
| AssertionFailed
| DivisionByZero.

Arguments Done {A} a.
Arguments NullPointer {A}.
Arguments AssertionFailed {A}.
Arguments DivisionByZero {A}.

#[global] Instance computation_bind : MBind computation := λ A B k c,
  match c with
  | Done a => k a
  | NullPointer => NullPointer
  | AssertionFailed => AssertionFailed
  | DivisionByZero => DivisionByZero
  end.

Definition of_outcome {A : Type} (o : outcome A) : computation A :=
  match o with
  | Ret a => Done a
  | NullDereference => NullPointer
  | AssertionFailure => AssertionFailed
  end.

(** [a / b] on [unsigned] operands. *)
Definition udiv (a b : Z) : computation Z :=
  if decide (b = 0) then DivisionByZero else Done (a / b).

(** The interface of a function analysis result with the block and
    reachability counters the coverage reports call, next to the answers
    [InputDependencyResult] holds. *)
Record FunctionAnalysisResult := mkFunctionAnalysisResult {
  answers : InputDependencyResult;
  get_input_dep_blocks_count : Z;
  get_input_indep_blocks_count : Z;
  get_unreachable_blocks_count : Z;
  get_unreachable_instructions_count : Z
}.

(** [InputDependencyAnalysisInfo]: the analysis info, a handle per
    function, [None] being the null handle. *)
Abbreviation InputDependencyAnalysisInfo :=
  (gmap Function (option FunctionAnalysisResult)).

Definition unsetStatsTypeName (st : Statistics) : Statistics :=
  mkStatistics None (m_entries st).

(** The fields of the three data structs are read off their uses; their
    order is the order of the values in the aggregate initialisers. *)
Record inputdepindep_data := mkInputdepindepData {
  name : string;
  input_deps_count : Z;
  input_indeps_count : Z;
  unknowns_count : Z
}.

Module input_dep_coverage_data.
Record t := mk {
  name : string;
  input_dep_blocks : Z;
  unreachable_blocks : Z;
  all_blocks : Z;
  input_dep_instrs : Z;
  unreachable_instrs : Z;
  all_instrs : Z
}.
End input_dep_coverage_data.

Module input_indep_coverage_data.
Record t := mk {
  name : string;
  input_indep_blocks : Z;
  unreachable_blocks : Z;
  all_blocks : Z;
  input_indep_instrs : Z;
  unreachable_instrs : Z;
  all_instrs : Z
}.
End input_indep_coverage_data.

(** The statistics object: the part of the [Statistics] base class and the
    two caches of per-function coverage data. *)
Record statistics := mkStatisticsObject {
  stats : Statistics;
  m_function_input_indep_coverage_data :
    gmap Function input_indep_coverage_data.t;
  m_function_input_dep_coverage_data :
    gmap Function input_dep_coverage_data.t
}.

Definition invalidate_stats_data (s : statistics) : statistics :=
  mkStatisticsObject (stats s) ∅ ∅.

Definition report_inputdepindep_data (st : Statistics)
    (data : inputdepindep_data) : computation Statistics :=
  let total :=
    wrap32 (wrap32 (input_deps_count data + input_indeps_count data)
            + unknowns_count data) in
  let st := write_entry st (name data) "Instructions" (Unsigned total) in
  let st := write_entry st (name data) "NumInputDep"
                        (Unsigned (input_deps_count data)) in
  let st := write_entry st (name data) "NumInputInDep"
                        (Unsigned (input_indeps_count data)) in
  let st := write_entry st (name data) "NumUnknowns"
                        (Unsigned (unknowns_count data)) in
  percent ← udiv (wrap32 (input_deps_count data * 100)) total;
  Done (write_entry st (name data) "Ratio" (Unsigned percent)).

Definition report_input_indep_coverage_data (st : Statistics)
    (data : input_indep_coverage_data.t) : computation Statistics :=
  let n := input_indep_coverage_data.name data in
  let st := write_entry st n "NumBlocks"
              (Unsigned (input_indep_coverage_data.all_blocks data)) in
  let st := write_entry st n "NumInputIndepBlocks"
              (Unsigned (input_indep_coverage_data.input_indep_blocks data)) in
  let st := write_entry st n "NumUnreachableBlocks"
              (Unsigned (input_indep_coverage_data.unreachable_blocks data)) in
  block_coverage ←
    udiv (wrap32 (input_indep_coverage_data.input_indep_blocks data * 100))
         (wrap32 (input_indep_coverage_data.all_blocks data
                  - input_indep_coverage_data.unreachable_blocks data));
  let st := write_entry st n "BlockCoverage" (Unsigned block_coverage) in
  let st := write_entry st n "NumInstrs"
              (Unsigned (input_indep_coverage_data.all_instrs data)) in
  let st := write_entry st n "NumInputIndepInstr"
              (Unsigned (input_indep_coverage_data.input_indep_instrs data)) in
  let st := write_entry st n "NumUnreachableInstr"
              (Unsigned (input_indep_coverage_data.unreachable_instrs data)) in
  instr_coverage ←
    udiv (wrap32 (input_indep_coverage_data.input_indep_instrs data * 100))
         (wrap32 (input_indep_coverage_data.all_instrs data
                  - input_indep_coverage_data.unreachable_instrs data));
  Done (write_entry st n "InstrCoverage" (Unsigned instr_coverage)).

Definition report_input_dep_coverage_data (st : Statistics)
    (data : input_dep_coverage_data.t) : computation Statistics :=
  let n := input_dep_coverage_data.name data in
  let st := write_entry st n "NumBlocks"
              (Unsigned (input_dep_coverage_data.all_blocks data)) in
  let st := write_entry st n "NumInputDepBlocks"
              (Unsigned (input_dep_coverage_data.input_dep_blocks data)) in
  let st := write_entry st n "NumUnreachableBlocks"
              (Unsigned (input_dep_coverage_data.unreachable_blocks data)) in
  block_coverage ←
    udiv (wrap32 (input_dep_coverage_data.input_dep_blocks data * 100))
         (wrap32 (input_dep_coverage_data.all_blocks data
                  - input_dep_coverage_data.unreachable_blocks data));
  let st := write_entry st n "BlockCoverage" (Unsigned block_coverage) in
  let st := write_entry st n "NumInstrs"
              (Unsigned (input_dep_coverage_data.all_instrs data)) in
  let st := write_entry st n "NumInputDepInstr"
              (Unsigned (input_dep_coverage_data.input_dep_instrs data)) in
  let st := write_entry st n "NumUnreachableInstr"
              (Unsigned (input_dep_coverage_data.unreachable_instrs data)) in
  instr_coverage ←
    udiv (wrap32 (input_dep_coverage_data.input_dep_instrs data * 100))
         (wrap32 (input_dep_coverage_data.all_instrs data
                  - input_dep_coverage_data.unreachable_instrs data));
  Done (write_entry st n "InstrCoverage" (Unsigned instr_coverage)).

(** [update_module_coverage_data] on dependent-coverage data. *)
Definition update_module_coverage_data_dep
    (module_coverage_data function_coverage_data : input_dep_coverage_data.t)
  : input_dep_coverage_data.t :=
  input_dep_coverage_data.mk
    (input_dep_coverage_data.name module_coverage_data)
    (wrap32 (input_dep_coverage_data.input_dep_blocks module_coverage_data
             + input_dep_coverage_data.input_dep_blocks
                 function_coverage_data))
    (wrap32 (input_dep_coverage_data.unreachable_blocks module_coverage_data
             + input_dep_coverage_data.unreachable_blocks
                 function_coverage_data))
    (wrap32 (input_dep_coverage_data.all_blocks module_coverage_data
             + input_dep_coverage_data.all_blocks function_coverage_data))
    (wrap32 (input_dep_coverage_data.input_dep_instrs module_coverage_data
             + input_dep_coverage_data.input_dep_instrs
                 function_coverage_data))
    (wrap32 (input_dep_coverage_data.unreachable_instrs module_coverage_data
             + input_dep_coverage_data.unreachable_instrs
                 function_coverage_data))
    (wrap32 (input_dep_coverage_data.all_instrs module_coverage_data
             + input_dep_coverage_data.all_instrs function_coverage_data)).

(** [update_module_coverage_data] on independent-coverage data. *)
Definition update_module_coverage_data_indep
    (module_coverage_data function_coverage_data
       : input_indep_coverage_data.t)
  : input_indep_coverage_data.t :=
  input_indep_coverage_data.mk
    (input_indep_coverage_data.name module_coverage_data)
    (wrap32 (input_indep_coverage_data.input_indep_blocks
               module_coverage_data
             + input_indep_coverage_data.input_indep_blocks
                 function_coverage_data))
    (wrap32 (input_indep_coverage_data.unreachable_blocks
               module_coverage_data
             + input_indep_coverage_data.unreachable_blocks
                 function_coverage_data))
    (wrap32 (input_indep_coverage_data.all_blocks module_coverage_data
             + input_indep_coverage_data.all_blocks function_coverage_data))
    (wrap32 (input_indep_coverage_data.input_indep_instrs
               module_coverage_data
             + input_indep_coverage_data.input_indep_instrs
                 function_coverage_data))
    (wrap32 (input_indep_coverage_data.unreachable_instrs
               module_coverage_data
             + input_indep_coverage_data.unreachable_instrs
                 function_coverage_data))
    (wrap32 (input_indep_coverage_data.all_instrs module_coverage_data
             + input_indep_coverage_data.all_instrs function_coverage_data)).

(** [handle->method()] *)
Definition call {A : Type} (handle : option FunctionAnalysisResult)
    (method : FunctionAnalysisResult → A) : computation A :=
  match handle with
  | Some r => Done (method r)
  | None => NullPointer
  end.

Section Module.

(** The host module: its name, its functions in order, and for each
    function its name and its basic blocks, each given by its instruction
    list. *)
Variable module_getName : string.
Variable m_module : list Function.
Variable Function_getName : Function → string.
Variable Function_blocks : Function → list (list Instruction).

(** The locals of [reportInputDepInputIndepRatio]. *)
Record ratio_locals := mkRatioLocals {
  module_dep_count : Z;
  module_indep_count : Z;
  module_unknown_count : Z
}.

Fixpoint ratio_loop (functions : list Function)
    (m_IDA : InputDependencyAnalysisInfo) (st : Statistics)
    (l : ratio_locals) : computation (Statistics * ratio_locals) :=
  match functions with
  | [] => Done (st, l)
  | F :: rest =>
      match m_IDA !! F with
      | None => ratio_loop rest m_IDA st l
      | Some FA =>
          dep_count ← call FA (λ r, get_input_dep_count (answers r));
          indep_count ← call FA (λ r, get_input_indep_count (answers r));
          unknown_count ←
            call FA (λ r, get_input_unknowns_count (answers r));
          st ← report_inputdepindep_data st
                 (mkInputdepindepData (Function_getName F) dep_count
                    indep_count unknown_count);
          ratio_loop rest m_IDA st
            (mkRatioLocals (wrap32 (module_dep_count l + dep_count))
               (wrap32 (module_indep_count l + indep_count))
               (wrap32 (module_unknown_count l + unknown_count)))
      end
  end.

Definition reportInputDepInputIndepRatio (st : Statistics)
    (m_IDA : InputDependencyAnalysisInfo) : computation Statistics :=
  let st := setStatsTypeName "input_dep_indep_ratio" st in
  '(st, l) ← ratio_loop m_module m_IDA st (mkRatioLocals 0 0 0);
  st ← report_inputdepindep_data st
         (mkInputdepindepData module_getName (module_dep_count l)
            (module_indep_count l) (module_unknown_count l));
  Done (unsetStatsTypeName st).

(** The loop of [reportInputInDepCoverage]. *)
Fixpoint indep_coverage_loop (functions : list Function)
    (m_IDA : InputDependencyAnalysisInfo) (s : statistics)
    (module_coverage_data : input_indep_coverage_data.t)
  : computation (statistics * input_indep_coverage_data.t) :=
  match functions with
  | [] => Done (s, module_coverage_data)
  | F :: rest =>
      match m_IDA !! F with
      | None => indep_coverage_loop rest m_IDA s module_coverage_data
      | Some FA =>
          match m_function_input_indep_coverage_data s !! F with
          | Some cached =>
              st ← report_input_indep_coverage_data (stats s) cached;
              indep_coverage_loop rest m_IDA
                (mkStatisticsObject st
                   (m_function_input_indep_coverage_data s)
                   (m_function_input_dep_coverage_data s))
                (update_module_coverage_data_indep module_coverage_data
                   cached)
          | None =>
              let cached_pos := m_function_input_dep_coverage_data s !! F in
              indep_count ← call FA get_input_indep_blocks_count;
              unreachable ←
                match cached_pos with
                | Some cov_data =>
                    Done (input_dep_coverage_data.unreachable_blocks cov_data)
                | None => call FA get_unreachable_blocks_count
                end;
              let blocks :=
                match cached_pos with
                | Some cov_data => input_dep_coverage_data.all_blocks cov_data
                | None => wrap32 (Z.of_nat (length (Function_blocks F)))
                end in
              indep_instrs_count ←
                call FA (λ r, get_input_indep_count (answers r));
              unreachable_instrs ←
                match cached_pos with
                | Some cov_data =>
                    Done (input_dep_coverage_data.unreachable_instrs cov_data)
                | None => call FA get_unreachable_instructions_count
                end;
              let instructions :=
                match cached_pos with
                | Some cov_data => input_dep_coverage_data.all_instrs cov_data
                | None =>
                    get_function_instrs_count Function_blocks F
                end in
              let input_indep_cov :=
                input_indep_coverage_data.mk (Function_getName F)
                  indep_count unreachable blocks indep_instrs_count
                  unreachable_instrs instructions in
              let cache :=
                <[F := input_indep_cov]>
                  (m_function_input_indep_coverage_data s) in
              st ← report_input_indep_coverage_data (stats s)
                     input_indep_cov;
              indep_coverage_loop rest m_IDA
                (mkStatisticsObject st cache
                   (m_function_input_dep_coverage_data s))
                (update_module_coverage_data_indep module_coverage_data
                   input_indep_cov)
          end
      end
  end.

Definition reportInputInDepCoverage (s : statistics)
    (m_IDA : InputDependencyAnalysisInfo) : computation statistics :=
  let s :=
    mkStatisticsObject (setStatsTypeName "input_indep_coverage" (stats s))
      (m_function_input_indep_coverage_data s)
      (m_function_input_dep_coverage_data s) in
  '(s, module_coverage_data) ←
    indep_coverage_loop m_module m_IDA s
      (input_indep_coverage_data.mk module_getName 0 0 0 0 0 0);
  st ← report_input_indep_coverage_data (stats s) module_coverage_data;
  Done (mkStatisticsObject (unsetStatsTypeName st)
          (m_function_input_indep_coverage_data s)
          (m_function_input_dep_coverage_data s)).

(** The loop of [reportInputDepCoverage]. *)
Fixpoint dep_coverage_loop (functions : list Function)
    (m_IDA : InputDependencyAnalysisInfo) (s : statistics)
    (module_coverage_data : input_dep_coverage_data.t)
  : computation (statistics * input_dep_coverage_data.t) :=
  match functions with
  | [] => Done (s, module_coverage_data)
  | F :: rest =>
      match m_IDA !! F with
      | None => dep_coverage_loop rest m_IDA s module_coverage_data
      | Some FA =>
          match m_function_input_dep_coverage_data s !! F with
          | Some cached =>
              st ← report_input_dep_coverage_data (stats s) cached;
              dep_coverage_loop rest m_IDA
                (mkStatisticsObject st
                   (m_function_input_indep_coverage_data s)
                   (m_function_input_dep_coverage_data s))
                (update_module_coverage_data_dep module_coverage_data cached)
          | None =>
              let cached_pos :=
                m_function_input_indep_coverage_data s !! F in
              is_dep ← call FA (λ r, isInputDepFunction (answers r));
              dep_count ←
                (if is_dep : bool then call FA get_input_dep_blocks_count
                 else Done 0);
              unreachable ←
                match cached_pos with
                | Some cov_data =>
                    Done (input_indep_coverage_data.unreachable_blocks
                            cov_data)
                | None => call FA get_unreachable_blocks_count
                end;
              let blocks :=
                match cached_pos with
                | Some cov_data =>
                    input_indep_coverage_data.all_blocks cov_data
                | None => wrap32 (Z.of_nat (length (Function_blocks F)))
                end in
              dep_instrs_count ←
                (if is_dep : bool
                 then call FA (λ r, get_input_dep_count (answers r))
                 else Done 0);
              unreachable_instrs ←
                match cached_pos with
                | Some cov_data =>
                    Done (input_indep_coverage_data.unreachable_instrs
                            cov_data)
                | None => call FA get_unreachable_instructions_count
                end;
              let instructions :=
                match cached_pos with
                | Some cov_data =>
                    input_indep_coverage_data.all_instrs cov_data
                | None =>
                    get_function_instrs_count Function_blocks F
                end in
              let input_dep_cov :=
                input_dep_coverage_data.mk (Function_getName F)
                  dep_count unreachable blocks dep_instrs_count
                  unreachable_instrs instructions in
              let cache :=
                <[F := input_dep_cov]>
                  (m_function_input_dep_coverage_data s) in
              st ← report_input_dep_coverage_data (stats s) input_dep_cov;
              dep_coverage_loop rest m_IDA
                (mkStatisticsObject st
                   (m_function_input_indep_coverage_data s) cache)
                (update_module_coverage_data_dep module_coverage_data
                   input_dep_cov)
          end
      end
  end.

Definition reportInputDepCoverage (s : statistics)
    (m_IDA : InputDependencyAnalysisInfo) : computation statistics :=
  let s :=
    mkStatisticsObject (setStatsTypeName "input_dep_coverage" (stats s))
      (m_function_input_indep_coverage_data s)
      (m_function_input_dep_coverage_data s) in
  '(s, module_coverage_data) ←
    dep_coverage_loop m_module m_IDA s
      (input_dep_coverage_data.mk module_getName 0 0 0 0 0 0);
  st ← report_input_dep_coverage_data (stats s) module_coverage_data;
  Done (mkStatisticsObject (unsetStatsTypeName st)
          (m_function_input_indep_coverage_data s)
          (m_function_input_dep_coverage_data s)).

(** [report()]: the four reports in the order of the source. The analysis
    info is handed to [reportInputDependencyInfo] through the answers it
    reads. *)
Definition report (s : statistics) (m_IDA : InputDependencyAnalysisInfo)
  : computation statistics :=
  st ← reportInputDepInputIndepRatio (stats s) m_IDA;
  st' ← of_outcome
          (reportInputDependencyInfo module_getName Function_getName
             Function_blocks st (fmap (M:=option) answers <$> m_IDA));
  s' ← reportInputDepCoverage
         (mkStatisticsObject st' (m_function_input_indep_coverage_data s)
            (m_function_input_dep_coverage_data s)) m_IDA;
  reportInputInDepCoverage s' m_IDA.

End Module.

(** The counters a cached dependent-coverage record and a cached
    independent-coverage record of one function share. *)
Definition same_totals (d : input_dep_coverage_data.t)
    (i : input_indep_coverage_data.t) : Prop :=
  input_dep_coverage_data.unreachable_blocks d
  = input_indep_coverage_data.unreachable_blocks i
  ∧ input_dep_coverage_data.all_blocks d
    = input_indep_coverage_data.all_blocks i
  ∧ input_dep_coverage_data.unreachable_instrs d
    = input_indep_coverage_data.unreachable_instrs i
  ∧ input_dep_coverage_data.all_instrs d
    = input_indep_coverage_data.all_instrs i.

(** The two caches agree on every function both hold. *)
Definition caches_agree (s : statistics) : Prop :=
  ∀ F d i,
    m_function_input_dep_coverage_data s !! F = Some d →
    m_function_input_indep_coverage_data s !! F = Some i →
    same_totals d i.

(** The sum of a counter over the functions of a list that the analysis
    info holds a result for. *)
Definition sum_registered (f : FunctionAnalysisResult → Z)
    (m_IDA : InputDependencyAnalysisInfo) (functions : list Function) : Z :=
  foldr (λ F acc,
           match m_IDA !! F with
           | Some (Some r) => f r + acc
           | _ => acc
           end) 0 functions.

End InputDependencyStatisticsReports.

(** * Theorems *)

Section Lattice.
Import llvm DepInfo.

Lemma mergeDependencies_comm (x y : DepInfo) :
  mergeDependencies x y = mergeDependencies y x.
Proof. destruct x, y; simpl; try reflexivity; f_equal; apply (comm_L (∪)). Qed.

Lemma mergeDependencies_assoc (x y z : DepInfo) :
  mergeDependencies x (mergeDependencies y z)
  = mergeDependencies (mergeDependencies x y) z.
Proof.
  destruct x, y, z; simpl; try reflexivity; f_equal; apply (assoc_L (∪)).
Qed.

Lemma mergeDependencies_idemp (x : DepInfo) : mergeDependencies x x = x.
Proof. destruct x; simpl; try reflexivity; f_equal; apply union_idemp_L. Qed.

Lemma mergeDependencies_top_r (x : DepInfo) :
  mergeDependencies x INPUT_DEP = INPUT_DEP.
Proof. by destruct x. Qed.

Lemma mergeDependencies_bot_r (x : DepInfo) :
  mergeDependencies x INPUT_INDEP = x.
Proof. by destruct x. Qed.

Lemma mergeDependencies_wf (x y : DepInfo) :
  wf x → wf y → wf (mergeDependencies x y).
Proof.
  destruct x, y; simpl; try done; intros Hx Hy;
    apply non_empty_union_L; by left.
Qed.

End Lattice.

(** ** The order induced by the merge *)

Section Order.
Import llvm DepInfo.

Lemma le_refl (x : DepInfo) : le x x.
Proof. apply mergeDependencies_idemp. Qed.

Lemma le_trans (x y z : DepInfo) : le x y → le y z → le x z.
Proof.
  unfold le. intros Hxy Hyz.
  by rewrite <- Hyz, mergeDependencies_assoc, Hxy.
Qed.

Lemma le_top (x : DepInfo) : le x INPUT_DEP.
Proof. apply mergeDependencies_top_r. Qed.

Lemma le_merge_l (x y : DepInfo) : le x (mergeDependencies x y).
Proof.
  unfold le. by rewrite mergeDependencies_assoc, mergeDependencies_idemp.
Qed.

Lemma le_merge_r (x y : DepInfo) : le y (mergeDependencies x y).
Proof. rewrite mergeDependencies_comm. apply le_merge_l. Qed.

Lemma le_merge_mono (x x' y y' : DepInfo) :
  le x x' → le y y' → le (mergeDependencies x y) (mergeDependencies x' y').
Proof.
  unfold le. intros Hx Hy.
  rewrite <- Hx at 2. rewrite <- Hy at 2.
  rewrite !mergeDependencies_assoc. f_equal.
  rewrite <- !mergeDependencies_assoc. f_equal.
  apply mergeDependencies_comm.
Qed.

Lemma isInputDep_eq (d : DepInfo) : isInputDep d = true → d = INPUT_DEP.
Proof. by destruct d. Qed.

Lemma finalizeArgumentDependencies_le args (d : DepInfo) :
  le d (Utils.finalizeArgumentDependencies args d).
Proof.
  destruct d; simpl; try apply le_refl.
  case (Utils.haveIntersection _ _); [apply le_top | apply le_refl].
Qed.

Lemma finalizeValueDependencies_le globals (d : DepInfo) :
  le d (Utils.finalizeValueDependencies globals d).
Proof.
  destruct d; simpl; try apply le_refl.
  case_bool_decide; [apply le_top | apply le_refl].
Qed.

End Order.

(** ** C6: the merge algebra *)

(** C6. The merge of dependency infos is commutative, associative and
    idempotent; [INPUT_DEP] absorbs every operand and [INPUT_INDEP] is the
    identity. Two argument- or value-dependent elements merge to the union
    of their sets: two of one kind keep the kind, a mixed pair, in either
    order, is the value-dependent element of the union. No merge leaves the
    four cases or invents a dependency: the result is [INPUT_DEP] exactly
    when an operand is, [INPUT_INDEP] exactly when both are, otherwise the
    set it carries is the union of the sets the operands carry, and it is
    not empty whenever the operands are well formed. *)
Theorem mergeDependencies_lattice (x y z : DepInfo.DepInfo)
    (A B : gset llvm.Value) :
  DepInfo.mergeDependencies x y = DepInfo.mergeDependencies y x
  ∧ DepInfo.mergeDependencies x (DepInfo.mergeDependencies y z)
    = DepInfo.mergeDependencies (DepInfo.mergeDependencies x y) z
  ∧ DepInfo.mergeDependencies x x = x
  ∧ DepInfo.mergeDependencies x DepInfo.INPUT_DEP = DepInfo.INPUT_DEP
  ∧ DepInfo.mergeDependencies x DepInfo.INPUT_INDEP = x
  ∧ DepInfo.mergeDependencies (DepInfo.INPUT_ARG_DEP A)
      (DepInfo.INPUT_ARG_DEP B) = DepInfo.INPUT_ARG_DEP (A ∪ B)
  ∧ DepInfo.mergeDependencies (DepInfo.VALUE_DEP A) (DepInfo.VALUE_DEP B)
    = DepInfo.VALUE_DEP (A ∪ B)
  ∧ DepInfo.mergeDependencies (DepInfo.INPUT_ARG_DEP A) (DepInfo.VALUE_DEP B)
    = DepInfo.VALUE_DEP (A ∪ B)
  ∧ DepInfo.mergeDependencies (DepInfo.VALUE_DEP A) (DepInfo.INPUT_ARG_DEP B)
    = DepInfo.VALUE_DEP (A ∪ B)
  ∧ DepInfo.isInputDep (DepInfo.mergeDependencies x y)
    = DepInfo.isInputDep x || DepInfo.isInputDep y
  ∧ DepInfo.isInputIndep (DepInfo.mergeDependencies x y)
    = DepInfo.isInputIndep x && DepInfo.isInputIndep y
  ∧ (DepInfo.isInputDep x = false → DepInfo.isInputDep y = false →
     DepInfo.getArgumentDependencies (DepInfo.mergeDependencies x y)
     ∪ DepInfo.getValueDependencies (DepInfo.mergeDependencies x y)
     = (DepInfo.getArgumentDependencies x ∪ DepInfo.getValueDependencies x)
       ∪ (DepInfo.getArgumentDependencies y
          ∪ DepInfo.getValueDependencies y))
  ∧ DepInfo.four_cases (DepInfo.mergeDependencies x y)
  ∧ (DepInfo.wf x → DepInfo.wf y →
     DepInfo.wf (DepInfo.mergeDependencies x y)).
Proof.
  split_and!.
  - apply mergeDependencies_comm.
  - apply mergeDependencies_assoc.
  - apply mergeDependencies_idemp.
  - apply mergeDependencies_top_r.
  - apply mergeDependencies_bot_r.
  - reflexivity.
  - reflexivity.
  - reflexivity.
  - reflexivity.
  - by destruct x, y.
  - by destruct x, y.
  - destruct x as [| X | X |], y as [| Y | Y |]; simpl; try discriminate;
      intros _ _;
      rewrite ?(left_id_L ∅ (∪)), ?(right_id_L ∅ (∪)); reflexivity.
  - unfold DepInfo.four_cases.
    destruct (DepInfo.mergeDependencies x y); eauto.
  - apply mergeDependencies_wf.
Qed.

(** The merge laws at a mixed pair of well-formed elements: the merge is
    the value-dependent element of the union, and it is well formed. *)
Lemma mergeDependencies_lattice_witness :
  DepInfo.wf (DepInfo.INPUT_ARG_DEP {[1%positive]})
  ∧ DepInfo.wf (DepInfo.VALUE_DEP {[2%positive]})
  ∧ DepInfo.mergeDependencies (DepInfo.INPUT_ARG_DEP {[1%positive]})
      (DepInfo.VALUE_DEP {[2%positive]})
    = DepInfo.VALUE_DEP ({[1%positive]} ∪ {[2%positive]})
  ∧ DepInfo.getArgumentDependencies
      (DepInfo.mergeDependencies (DepInfo.INPUT_ARG_DEP {[1%positive]})
         (DepInfo.VALUE_DEP {[2%positive]}))
    ∪ DepInfo.getValueDependencies
        (DepInfo.mergeDependencies (DepInfo.INPUT_ARG_DEP {[1%positive]})
           (DepInfo.VALUE_DEP {[2%positive]}))
    = (DepInfo.getArgumentDependencies
         (DepInfo.INPUT_ARG_DEP {[1%positive]})
       ∪ DepInfo.getValueDependencies
           (DepInfo.INPUT_ARG_DEP {[1%positive]}))
      ∪ (DepInfo.getArgumentDependencies (DepInfo.VALUE_DEP {[2%positive]})
         ∪ DepInfo.getValueDependencies (DepInfo.VALUE_DEP {[2%positive]}))
  ∧ DepInfo.wf (DepInfo.mergeDependencies
                  (DepInfo.INPUT_ARG_DEP {[1%positive]})
                  (DepInfo.VALUE_DEP {[2%positive]})).
Proof.
  assert (Hx : DepInfo.wf (DepInfo.INPUT_ARG_DEP {[1%positive]})).
  { simpl. apply non_empty_singleton_L. }
  assert (Hy : DepInfo.wf (DepInfo.VALUE_DEP {[2%positive]})).
  { simpl. apply non_empty_singleton_L. }
  destruct (mergeDependencies_lattice (DepInfo.INPUT_ARG_DEP {[1%positive]})
              (DepInfo.VALUE_DEP {[2%positive]}) DepInfo.INPUT_INDEP
              {[1%positive]} {[2%positive]})
    as (_ & _ & _ & _ & _ & _ & _ & Hmixed & _ & _ & _ & Hsets & _ & Hwf).
  split_and!.
  - exact Hx.
  - exact Hy.
  - exact Hmixed.
  - exact (Hsets eq_refl eq_refl).
  - exact (Hwf Hx Hy).
Defined.

(** ** Composite dependencies and the ambient context *)

Section Composite.
Import llvm DepInfo.

Lemma ValueDepInfo_le_refl (v : ValueDepInfo.ValueDepInfo) :
  ValueDepInfo.le v v.
Proof. split; [apply le_refl | intros k e He; eauto using le_refl]. Qed.

Lemma mergeDependencies_DepInfo_skip (v : ValueDepInfo.ValueDepInfo)
    (ctx : DepInfo) :
  ValueDepInfo.isInputDep v = true →
  ValueDepInfo.mergeDependencies_DepInfo v ctx = v.
Proof.
  destruct v as [w els]. unfold ValueDepInfo.isInputDep. simpl.
  intros ->%isInputDep_eq. reflexivity.
Qed.

Lemma finalizeValueDepInfo_le (f : DepInfo → DepInfo)
    (v : ValueDepInfo.ValueDepInfo) :
  (∀ d, le d (f d)) →
  ValueDepInfo.le v (ReflectingBasicBlockAnaliser.finalizeValueDepInfo f v).
Proof.
  intros Hf. split; simpl; [apply Hf |].
  intros k e He. exists (f e). split; [| apply Hf].
  by rewrite lookup_fmap, He.
Qed.

End Composite.

(** ** C3: reads of the non-deterministic reflecting analyser *)

Section Reads.
Import llvm DepInfo NonDeterministicReflectingBasicBlockAnaliser.

Variable Reflecting_getInstructionDependencies :
  Reflecting → Instruction → DepInfo * Reflecting.
Variable Reflecting_getValueDependencies :
  Reflecting → Value → option ValueDepInfo * Reflecting.
Variable Reflecting_getCompositeValueDependencies :
  Reflecting → Value → Instruction → option ValueDepInfo * Reflecting.

Lemma addOnDependencyInfo_naive (a : analiser) (info : DepInfo) :
  addOnDependencyInfo a info = naive_read (m_nonDeterministicDeps a) info.
Proof.
  unfold addOnDependencyInfo, naive_read.
  destruct (isInputDep info) eqn:E; [| reflexivity].
  apply isInputDep_eq in E. by subst.
Qed.

(** C3. Whatever the base class returns, a read of the non-deterministic
    reflecting analyser returns the stored dependency merged with the
    ambient context (a dependency that is not defined is returned as it
    is): the read that leaves the merge out for a stored [INPUT_DEP] yields
    what the read that always merges yields. *)
Theorem reads_merge_ambient_context (a : analiser) (instr el : Instruction)
    (value : Value) (info : DepInfo) :
  (getInstructionDependencies Reflecting_getInstructionDependencies a instr).1
  = naive_read (m_nonDeterministicDeps a)
      (Reflecting_getInstructionDependencies (base a) instr).1
  ∧ (getValueDependencies Reflecting_getValueDependencies a value).1
    = naive_read_ValueDepInfo (m_nonDeterministicDeps a)
      <$> (Reflecting_getValueDependencies (base a) value).1
  ∧ (getCompositeValueDependencies Reflecting_getCompositeValueDependencies
       a value el).1
    = naive_read_ValueDepInfo (m_nonDeterministicDeps a)
      <$> (Reflecting_getCompositeValueDependencies (base a) value el).1
  ∧ addOnDependencyInfo a info = naive_read (m_nonDeterministicDeps a) info.
Proof.
  split_and!.
  - unfold getInstructionDependencies, naive_read.
    destruct (Reflecting_getInstructionDependencies _ _) as [d b]. simpl.
    destruct (isInputDep d) eqn:E; [| reflexivity].
    apply isInputDep_eq in E. by subst.
  - unfold getValueDependencies, naive_read_ValueDepInfo.
    destruct (Reflecting_getValueDependencies _ _) as [[d|] b]; simpl;
      [| reflexivity].
    destruct (ValueDepInfo.isInputDep d) eqn:E; [| reflexivity].
    simpl. by rewrite mergeDependencies_DepInfo_skip.
  - unfold getCompositeValueDependencies, naive_read_ValueDepInfo.
    destruct (Reflecting_getCompositeValueDependencies _ _ _) as [[d|] b];
      simpl; [| reflexivity].
    destruct (ValueDepInfo.isInputDep d) eqn:E; [| reflexivity].
    simpl. by rewrite mergeDependencies_DepInfo_skip.
  - apply addOnDependencyInfo_naive.
Qed.

End Reads.

(** ** C2: writes of the non-deterministic reflecting analyser *)

Section Writes.
Import llvm DepInfo NonDeterministicReflectingBasicBlockAnaliser.

Variable Reflecting_getArgumentValueDependecnies :
  Reflecting → Value → ValueDepInfo * Reflecting.
Variable Reflecting_updateCompositeValueDependencies :
  Reflecting → Value → Instruction → ValueDepInfo → Reflecting.
Variable Reflecting_updateInstructionDependencies :
  Reflecting → Instruction → DepInfo → Reflecting.
Variable Reflecting_updateReturnValueDependencies :
  Reflecting → ValueDepInfo → Reflecting.

Lemma addOnDependencyInfo_carries (a : analiser) (info : DepInfo) :
  le (m_nonDeterministicDeps a) (addOnDependencyInfo a info).
Proof. rewrite addOnDependencyInfo_naive. apply le_merge_r. Qed.

Lemma addOnDependencyInfo_ValueDepInfo_carries (a : analiser)
    (info : ValueDepInfo) :
  ValueDepInfo.carries (m_nonDeterministicDeps a)
    (addOnDependencyInfo_ValueDepInfo a info).
Proof.
  destruct info as [w els]. split; simpl; [apply le_merge_r |].
  intros k e. rewrite lookup_union_with, lookup_fmap.
  destruct (els !! k) as [e0|]; simpl; [| done].
  intros [= <-]. apply le_merge_r.
Qed.

(** C2, as the code has it. [updateInstructionDependencies],
    [updateReturnValueDependencies] and [updateCompositeValueDependencies]
    hand to the store of the base class the dependency with the ambient
    context folded in, and that dependency carries the context; with the
    store of section 4.3 the entry of the instruction carries it. An
    argument-dependency lookup folds the context in unless the dependency
    it looked up is [INPUT_INDEP], which it returns as it is. *)
Theorem writes_fold_ambient_context (a : analiser) (instr el : Instruction)
    (value : Value) (info : DepInfo) (vinfo : ValueDepInfo) :
  let ctx := m_nonDeterministicDeps a in
  let looked := (Reflecting_getArgumentValueDependecnies (base a) value).1 in
  let result :=
    (getArgumentValueDependecnies Reflecting_getArgumentValueDependecnies
       a value).1 in
  updateInstructionDependencies Reflecting_updateInstructionDependencies
    a instr info
  = mkAnaliser
      (Reflecting_updateInstructionDependencies (base a) instr
         (mergeDependencies info ctx)) ctx
  ∧ le ctx (mergeDependencies info ctx)
  ∧ ReflectingBasicBlockAnaliser.m_inputDependentInstrs
      (base (updateInstructionDependencies
               ReflectingBasicBlockAnaliser.updateInstructionDependencies
               a instr info)) !! instr
    = Some (mergeDependencies info ctx)
  ∧ updateReturnValueDependencies Reflecting_updateReturnValueDependencies
      a vinfo
    = mkAnaliser
        (Reflecting_updateReturnValueDependencies (base a)
           (addOnDependencyInfo_ValueDepInfo a vinfo)) ctx
  ∧ updateCompositeValueDependencies
      Reflecting_updateCompositeValueDependencies a value el vinfo
    = mkAnaliser
        (Reflecting_updateCompositeValueDependencies (base a) value el
           (addOnDependencyInfo_ValueDepInfo a vinfo)) ctx
  ∧ ValueDepInfo.carries ctx (addOnDependencyInfo_ValueDepInfo a vinfo)
  ∧ (if ValueDepInfo.isInputIndep looked then result = looked
     else ValueDepInfo.carries ctx result).
Proof.
  intros ctx looked result. split_and!.
  - unfold updateInstructionDependencies.
    by rewrite addOnDependencyInfo_naive.
  - apply le_merge_r.
  - unfold updateInstructionDependencies. simpl.
    rewrite addOnDependencyInfo_naive. apply lookup_insert_eq.
  - reflexivity.
  - reflexivity.
  - apply addOnDependencyInfo_ValueDepInfo_carries.
  - subst looked result. unfold getArgumentValueDependecnies.
    destruct (Reflecting_getArgumentValueDependecnies _ _) as [d b]. simpl.
    destruct (ValueDepInfo.isInputIndep d); simpl; [reflexivity |].
    apply addOnDependencyInfo_ValueDepInfo_carries.
Qed.

End Writes.

(** C2 fails as stated: under the ambient context [INPUT_DEP],
    [updateValueDependencies] stores an [INPUT_INDEP] dependency as it was
    given, and an argument lookup that finds [INPUT_INDEP] returns it as it
    is; neither carries the context. *)
Lemma writes_without_ambient_context :
  let info := ValueDepInfo.mkValueDepInfo DepInfo.INPUT_INDEP ∅ in
  let a :=
    NonDeterministicReflectingBasicBlockAnaliser.mkAnaliser
      (ReflectingBasicBlockAnaliser.mkAnaliser false ∅ ∅ info)
      DepInfo.INPUT_DEP in
  ReflectingBasicBlockAnaliser.m_valueDependencies
    (NonDeterministicReflectingBasicBlockAnaliser.base
       (NonDeterministicReflectingBasicBlockAnaliser.updateValueDependencies
          ReflectingBasicBlockAnaliser.updateValueDependencies
          a 1%positive info false)) !! 1%positive
  = Some info
  ∧ (NonDeterministicReflectingBasicBlockAnaliser.getArgumentValueDependecnies
       (λ b _, (info, b)) a 1%positive).1 = info
  ∧ ¬ ValueDepInfo.carries
        (NonDeterministicReflectingBasicBlockAnaliser.m_nonDeterministicDeps a)
        info.
Proof.
  simpl. split_and!.
  - apply lookup_insert_eq.
  - reflexivity.
  - intros [H _]. discriminate H.
Qed.

(** Both [updateValueDependencies] overloads hand their argument to the
    base class as it is. *)
Lemma updateValueDependencies_forwards
    (upd_DepInfo :
       NonDeterministicReflectingBasicBlockAnaliser.Reflecting →
       llvm.Value → DepInfo.DepInfo → bool →
       NonDeterministicReflectingBasicBlockAnaliser.Reflecting)
    (upd :
       NonDeterministicReflectingBasicBlockAnaliser.Reflecting →
       llvm.Value → ValueDepInfo.ValueDepInfo → bool →
       NonDeterministicReflectingBasicBlockAnaliser.Reflecting)
    (a : NonDeterministicReflectingBasicBlockAnaliser.analiser)
    (value : llvm.Value) (info : DepInfo.DepInfo)
    (vinfo : ValueDepInfo.ValueDepInfo) (update_aliases : bool) :
  NonDeterministicReflectingBasicBlockAnaliser.updateValueDependencies_DepInfo
    upd_DepInfo a value info update_aliases
  = NonDeterministicReflectingBasicBlockAnaliser.mkAnaliser
      (upd_DepInfo (NonDeterministicReflectingBasicBlockAnaliser.base a)
         value info update_aliases)
      (NonDeterministicReflectingBasicBlockAnaliser.m_nonDeterministicDeps a)
  ∧ NonDeterministicReflectingBasicBlockAnaliser.updateValueDependencies
      upd a value vinfo update_aliases
    = NonDeterministicReflectingBasicBlockAnaliser.mkAnaliser
        (upd (NonDeterministicReflectingBasicBlockAnaliser.base a)
           value vinfo update_aliases)
        (NonDeterministicReflectingBasicBlockAnaliser.m_nonDeterministicDeps
           a).
Proof. split; reflexivity. Qed.

(** ** C4: the finalize passes mark the block *)

Section Finalize.
Import llvm DepInfo Utils NonDeterministicReflectingBasicBlockAnaliser.

Variable Reflecting_finalizeResults :
  Reflecting → ArgumentDependenciesMap → Reflecting.
Variable BasicBlockAnalysisResult_finalizeGlobals :
  Reflecting → GlobalVariableDependencyMap → Reflecting.

Lemma finalizeGlobals_context (a : analiser)
    (globalsDeps : GlobalVariableDependencyMap) :
  m_nonDeterministicDeps
    (finalizeGlobals BasicBlockAnalysisResult_finalizeGlobals a globalsDeps)
  = finalizeValueDependencies globalsDeps (m_nonDeterministicDeps a).
Proof.
  unfold finalizeGlobals.
  destruct (m_nonDeterministicDeps a); reflexivity.
Qed.

(** C4. Whatever the pass of the base class does, after [finalizeResults]
    the block is marked input dependent when its ambient context is
    [INPUT_DEP] or is an [INPUT_ARG_DEP] whose set intersects the confirmed
    arguments. [finalizeGlobals] applies the promotion of value-dependent
    tags to the ambient context in every case; when the context is a
    [VALUE_DEP] whose set intersects the confirmed globals it becomes
    [INPUT_DEP] and the block is marked, and with the pass of section 4.3 a
    stored instruction tag of that kind becomes [INPUT_DEP] too. *)
Theorem finalize_marks_block (a : analiser)
    (dependentArgs : ArgumentDependenciesMap)
    (globalsDeps : GlobalVariableDependencyMap) :
  let nonDet := m_nonDeterministicDeps a in
  ((nonDet = INPUT_DEP
    ∨ ∃ A, nonDet = INPUT_ARG_DEP A ∧ dom dependentArgs ∩ A ≠ ∅) →
   ReflectingBasicBlockAnaliser.m_is_inputDep
     (base (finalizeResults Reflecting_finalizeResults a dependentArgs))
   = true)
  ∧ m_nonDeterministicDeps
      (finalizeGlobals BasicBlockAnalysisResult_finalizeGlobals a globalsDeps)
    = finalizeValueDependencies globalsDeps nonDet
  ∧ (∀ A, nonDet = VALUE_DEP A → dom globalsDeps ∩ A ≠ ∅ →
     m_nonDeterministicDeps
       (finalizeGlobals BasicBlockAnalysisResult_finalizeGlobals a
          globalsDeps) = INPUT_DEP
     ∧ ReflectingBasicBlockAnaliser.m_is_inputDep
         (base (finalizeGlobals BasicBlockAnalysisResult_finalizeGlobals a
                  globalsDeps)) = true)
  ∧ (∀ instr A,
     ReflectingBasicBlockAnaliser.m_inputDependentInstrs (base a) !! instr
     = Some (VALUE_DEP A) →
     dom globalsDeps ∩ A ≠ ∅ →
     ReflectingBasicBlockAnaliser.m_inputDependentInstrs
       (base (finalizeGlobals ReflectingBasicBlockAnaliser.finalizeGlobals a
                globalsDeps)) !! instr = Some INPUT_DEP).
Proof.
  intros nonDet. split_and!.
  - unfold finalizeResults. fold nonDet.
    intros [-> | (A & -> & HA)]; simpl; [reflexivity |].
    unfold haveIntersection. by rewrite bool_decide_eq_true_2.
  - apply finalizeGlobals_context.
  - intros A HA Hdom. unfold finalizeGlobals. fold nonDet. rewrite HA. simpl.
    rewrite (bool_decide_eq_true_2 _ Hdom). simpl.
    split; [reflexivity | apply orb_true_r].
  - intros instr A Hst Hdom.
    assert (Hb : ReflectingBasicBlockAnaliser.m_inputDependentInstrs
              (ReflectingBasicBlockAnaliser.finalizeGlobals (base a)
                 globalsDeps) !! instr = Some INPUT_DEP).
    { simpl. rewrite lookup_fmap, Hst. simpl.
      by rewrite (bool_decide_eq_true_2 _ Hdom). }
    unfold finalizeGlobals.
    by destruct (negb _ && _).
Qed.

End Finalize.

(** The two promotions of C4 at a block whose context depends on argument 1
    (confirmed), and at a block whose context depends on global 2
    (confirmed) and that stores that tag for an instruction. *)
Lemma finalize_marks_block_witness :
  let i := llvm.mkInstruction 1 None in
  let info := ValueDepInfo.mkValueDepInfo DepInfo.INPUT_INDEP ∅ in
  let b :=
    ReflectingBasicBlockAnaliser.mkAnaliser false ∅
      {[ i := DepInfo.VALUE_DEP {[2%positive]} ]} info in
  let a1 :=
    NonDeterministicReflectingBasicBlockAnaliser.mkAnaliser b
      (DepInfo.INPUT_ARG_DEP {[1%positive]}) in
  let a2 :=
    NonDeterministicReflectingBasicBlockAnaliser.mkAnaliser b
      (DepInfo.VALUE_DEP {[2%positive]}) in
  let confirmed : gmap llvm.Value DepInfo.DepInfo :=
    {[ 1%positive := DepInfo.INPUT_DEP; 2%positive := DepInfo.INPUT_DEP ]} in
  ReflectingBasicBlockAnaliser.m_is_inputDep
    (NonDeterministicReflectingBasicBlockAnaliser.base
       (NonDeterministicReflectingBasicBlockAnaliser.finalizeResults
          ReflectingBasicBlockAnaliser.finalizeResults a1 confirmed)) = true
  ∧ NonDeterministicReflectingBasicBlockAnaliser.m_nonDeterministicDeps
      (NonDeterministicReflectingBasicBlockAnaliser.finalizeGlobals
         ReflectingBasicBlockAnaliser.finalizeGlobals a2 confirmed)
    = DepInfo.INPUT_DEP
  ∧ ReflectingBasicBlockAnaliser.m_inputDependentInstrs
      (NonDeterministicReflectingBasicBlockAnaliser.base
         (NonDeterministicReflectingBasicBlockAnaliser.finalizeGlobals
            ReflectingBasicBlockAnaliser.finalizeGlobals a2 confirmed)) !! i
    = Some DepInfo.INPUT_DEP.
Proof.
  intros i info b a1 a2 confirmed.
  assert (H1 : dom confirmed ∩ ({[1%positive]} : gset llvm.Value) ≠ ∅).
  { apply (bool_decide_eq_true_1 _). vm_compute. reflexivity. }
  assert (H2 : dom confirmed ∩ ({[2%positive]} : gset llvm.Value) ≠ ∅).
  { apply (bool_decide_eq_true_1 _). vm_compute. reflexivity. }
  split_and!.
  - apply (proj1 (finalize_marks_block
                    ReflectingBasicBlockAnaliser.finalizeResults
                    ReflectingBasicBlockAnaliser.finalizeGlobals
                    a1 confirmed confirmed)).
    right. exists {[1%positive]}. split; [reflexivity | exact H1].
  - apply (proj1 (proj1 (proj2 (proj2 (finalize_marks_block
                    ReflectingBasicBlockAnaliser.finalizeResults
                    ReflectingBasicBlockAnaliser.finalizeGlobals
                    a2 confirmed confirmed))) {[2%positive]} eq_refl H2)).
  - apply (proj2 (proj2 (proj2 (finalize_marks_block
                    ReflectingBasicBlockAnaliser.finalizeResults
                    ReflectingBasicBlockAnaliser.finalizeGlobals
                    a2 confirmed confirmed))) i {[2%positive]});
      [apply lookup_singleton_eq | exact H2].
Defined.

(** ** C5: the finalize passes only raise dependencies *)

Section Monotone.
Import llvm DepInfo Utils NonDeterministicReflectingBasicBlockAnaliser.

Lemma le_assigned_le (a a' : analiser) : analiser_le a a' → assigned_le a a'.
Proof.
  intros (Hi & _ & _ & Hctx & _) i d Hd.
  destruct (Hi i d Hd) as (d' & Hd' & Hle).
  exists d'. split; [exact Hd' |]. by apply le_merge_mono.
Qed.

Lemma Reflecting_finalize_le (f : DepInfo → DepInfo)
    (b : Reflecting) (flag : bool) (ctx ctx' : DepInfo) :
  (∀ d, DepInfo.le d (f d)) →
  DepInfo.le ctx ctx' →
  (ReflectingBasicBlockAnaliser.m_is_inputDep b = true → flag = true) →
  analiser_le (mkAnaliser b ctx)
     (mkAnaliser
        (ReflectingBasicBlockAnaliser.mkAnaliser flag
           (ReflectingBasicBlockAnaliser.finalizeValueDepInfo f
              <$> ReflectingBasicBlockAnaliser.m_valueDependencies b)
           (f <$> ReflectingBasicBlockAnaliser.m_inputDependentInstrs b)
           (ReflectingBasicBlockAnaliser.finalizeValueDepInfo f
              (ReflectingBasicBlockAnaliser.m_returnValueDependencies b)))
        ctx').
Proof.
  intros Hf Hctx Hflag. unfold analiser_le. simpl. split_and!.
  - intros i d Hd. exists (f d). by rewrite lookup_fmap, Hd.
  - intros v d Hd.
    exists (ReflectingBasicBlockAnaliser.finalizeValueDepInfo f d).
    rewrite lookup_fmap, Hd. split; [done |].
    by apply finalizeValueDepInfo_le.
  - by apply finalizeValueDepInfo_le.
  - exact Hctx.
  - exact Hflag.
Qed.

(** C5. With the passes of the base class as section 4.3 describes them,
    [finalizeResults] and [finalizeGlobals] only raise: every stored
    instruction dependency, every stored value dependency (the wrapped
    dependency and each element), the return-value dependency and the
    ambient context after the call are above their value before it in the
    lattice order, a mark of the block is never taken back, and so the
    dependency a read assigns to an instruction is above the one it
    assigned before. *)
Theorem finalize_only_raises (a : analiser)
    (dependentArgs : ArgumentDependenciesMap)
    (globalsDeps : GlobalVariableDependencyMap) :
  let a1 :=
    finalizeResults ReflectingBasicBlockAnaliser.finalizeResults
      a dependentArgs in
  let a2 :=
    finalizeGlobals ReflectingBasicBlockAnaliser.finalizeGlobals
      a globalsDeps in
  analiser_le a a1 ∧ analiser_le a a2
  ∧ assigned_le a a1 ∧ assigned_le a a2.
Proof.
  intros a1 a2.
  assert (H1 : analiser_le a a1).
  { subst a1. destruct a as [b ctx]. unfold finalizeResults. simpl.
    assert (Hb : ∀ flag,
      (ReflectingBasicBlockAnaliser.m_is_inputDep b = true → flag = true) →
      analiser_le (mkAnaliser b ctx)
         (mkAnaliser
            (ReflectingBasicBlockAnaliser.set_is_inputDep flag
               (ReflectingBasicBlockAnaliser.finalizeResults b dependentArgs))
            ctx)).
    { intros flag Hflag.
      apply Reflecting_finalize_le;
        [apply finalizeArgumentDependencies_le | apply le_refl | exact Hflag]. }
    assert (Hid :
      ReflectingBasicBlockAnaliser.finalizeResults b dependentArgs
      = ReflectingBasicBlockAnaliser.set_is_inputDep
          (ReflectingBasicBlockAnaliser.m_is_inputDep b)
          (ReflectingBasicBlockAnaliser.finalizeResults b dependentArgs))
      by reflexivity.
    destruct (isInputDep ctx);
      destruct (isInputArgumentDep ctx && haveIntersection _ _);
      try (apply (Hb true); reflexivity).
    rewrite Hid. by apply Hb. }
  assert (H2 : analiser_le a a2).
  { subst a2. destruct a as [b ctx]. unfold finalizeGlobals. simpl.
    destruct (negb (isValueDep ctx) && _).
    - apply Reflecting_finalize_le;
        [apply finalizeValueDependencies_le | apply le_refl | done].
    - apply Reflecting_finalize_le;
        [apply finalizeValueDependencies_le
        | apply finalizeValueDependencies_le |].
      simpl. intros ->. reflexivity. }
  split_and!; [exact H1 | exact H2 | |]; by apply le_assigned_le.
Qed.

End Monotone.

(** ** C1: queries of the module analysis cache *)

Section CacheQueries.
Import llvm InputDependencyResult CachedInputDependencyAnalysis.

(** C1. Let [F] be a function, [instr'] an instruction of a block of [F]
    and [block] a block of [F]. When [F] was never registered, the three
    [isInputDependent] queries return false and [getAnalysisInfo] returns
    the null handle; when [F] is registered with a result, each query
    returns what that result answers and [getAnalysisInfo] returns it. *)
Theorem queries_soft_fail_or_delegate
    (m_functionAnalisers : gmap Function InputDepResType) (F : Function)
    (instr instr' : Instruction) (block block' : BasicBlock)
    (Hinstr : inst_getParent instr' = Some block')
    (Hblock' : bb_getParent block' = F)
    (HF : F ≠ nullptr)
    (Hblock : bb_getParent block = F) :
  (m_functionAnalisers !! F = None →
   isInputDependent m_functionAnalisers F instr = Ret false
   ∧ isInputDependent_Instruction m_functionAnalisers instr' = Ret false
   ∧ isInputDependent_BasicBlock m_functionAnalisers block = Ret false
   ∧ getAnalysisInfo m_functionAnalisers F = None)
  ∧ (∀ r, m_functionAnalisers !! F = Some (Some r) →
     isInputDependent m_functionAnalisers F instr
     = Ret (InputDependencyResult.isInputDependent r instr)
     ∧ isInputDependent_Instruction m_functionAnalisers instr'
       = Ret (InputDependencyResult.isInputDependent r instr')
     ∧ isInputDependent_BasicBlock m_functionAnalisers block
       = Ret (isInputDependentBlock r block)
     ∧ getAnalysisInfo m_functionAnalisers F = Some r).
Proof.
  split.
  - intros Hnone.
    unfold isInputDependent_Instruction, isInputDependent_BasicBlock,
      isInputDependent, getAnalysisInfo.
    rewrite Hinstr. simpl. rewrite Hblock', Hblock, Hnone.
    by rewrite decide_False.
  - intros r Hsome.
    unfold isInputDependent_Instruction, isInputDependent_BasicBlock,
      isInputDependent, getAnalysisInfo.
    rewrite Hinstr. simpl. rewrite Hblock', Hblock, Hsome.
    by rewrite decide_False.
Qed.

End CacheQueries.

(** The queries of C1 on an empty cache and on a cache that holds a result
    for function 1. *)
Lemma queries_soft_fail_or_delegate_witness :
  let block := llvm.mkBasicBlock 1 1%N in
  let instr := llvm.mkInstruction 1 (Some block) in
  let r :=
    InputDependencyResult.mkResult (λ _, true) (λ _, true) true 1 0 0 in
  (CachedInputDependencyAnalysis.isInputDependent ∅ 1%N instr = Ret false
   ∧ CachedInputDependencyAnalysis.isInputDependent_Instruction ∅ instr
     = Ret false
   ∧ CachedInputDependencyAnalysis.isInputDependent_BasicBlock ∅ block
     = Ret false
   ∧ CachedInputDependencyAnalysis.getAnalysisInfo ∅ 1%N = None)
  ∧ (CachedInputDependencyAnalysis.isInputDependent
       {[ 1%N := Some r ]} 1%N instr = Ret true
     ∧ CachedInputDependencyAnalysis.isInputDependent_Instruction
         {[ 1%N := Some r ]} instr = Ret true
     ∧ CachedInputDependencyAnalysis.isInputDependent_BasicBlock
         {[ 1%N := Some r ]} block = Ret true
     ∧ CachedInputDependencyAnalysis.getAnalysisInfo
         {[ 1%N := Some r ]} 1%N = Some r).
Proof.
  intros block instr r.
  assert (HF : (1%N : llvm.Function) ≠ llvm.nullptr) by discriminate.
  split.
  - apply (proj1 (queries_soft_fail_or_delegate ∅ 1%N instr instr block block
                    eq_refl eq_refl HF eq_refl)).
    apply lookup_empty.
  - apply (proj2 (queries_soft_fail_or_delegate {[ 1%N := Some r ]} 1%N
                    instr instr block block eq_refl eq_refl HF eq_refl) r).
    apply lookup_singleton_eq.
Defined.

(** The paths of the instruction-only query that do not return: an
    instruction outside any block, a block outside any function, and a
    registered null handle. *)
Example isInputDependent_detached_instruction :
  CachedInputDependencyAnalysis.isInputDependent_Instruction ∅
    (llvm.mkInstruction 1 None) = NullDereference.
Proof. reflexivity. Qed.

Example isInputDependent_block_without_function :
  CachedInputDependencyAnalysis.isInputDependent_Instruction ∅
    (llvm.mkInstruction 1 (Some (llvm.mkBasicBlock 1 llvm.nullptr)))
  = AssertionFailure.
Proof. reflexivity. Qed.

Example isInputDependent_null_handle :
  CachedInputDependencyAnalysis.isInputDependent {[ 1%N := None ]} 1%N
    (llvm.mkInstruction 1 None) = NullDereference.
Proof. reflexivity. Qed.

(** ** C7: registration in the module analysis cache *)

Section Registration.
Import llvm InputDependencyResult CachedInputDependencyAnalysis.

Variable isLibraryFunction : Function → bool.
Variable analyze : Function → InputDependencyResult.

Lemma run_loop_invariant (functions : list Function) :
  ∀ (m : gmap Function InputDepResType) created m' created',
    run_loop isLibraryFunction analyze functions m created
    = Ret (m', created') →
    NoDup created.*1 →
    (∀ F, F ∈ created.*1 → is_Some (m !! F)) →
    NoDup created'.*1
    ∧ (∀ F, F ∈ created'.*1 → is_Some (m' !! F))
    ∧ (∀ F h, m !! F = Some h → m' !! F = Some h)
    ∧ (∀ F res, (F, res) ∈ created' →
       (F, res) ∈ created ∨ (m !! F = None ∧ m' !! F = Some (Some res))).
Proof.
  induction functions as [| F rest IH]; intros m created m' created' Hrun Hnd Hin.
  - simpl in Hrun. injection Hrun as <- <-. split_and!; auto.
  - simpl in Hrun. destruct (isLibraryFunction F); [by eapply IH |].
    destruct (m !! F) as [h|] eqn:HmF; [discriminate |].
    apply IH in Hrun as (Hnd' & Hin' & Hkeep & Hnew).
    + split_and!; [exact Hnd' | exact Hin' | |].
      * intros F' h Hh. apply Hkeep.
        rewrite lookup_insert_ne; [exact Hh | congruence].
      * intros F' res [Heq | Hold]%Hnew.
        -- apply elem_of_cons in Heq as [[= -> ->] | Heq]; [| by left].
           right. split; [exact HmF |]. apply Hkeep, lookup_insert_eq.
        -- destruct Hold as [Hnone Hsome]. right. split; [| exact Hsome].
           destruct (decide (F = F')) as [-> | Hne].
           ++ by rewrite lookup_insert_eq in Hnone.
           ++ by rewrite lookup_insert_ne in Hnone.
    + simpl. apply NoDup_cons. split; [| exact Hnd].
      intros HF. apply Hin in HF as [? HF]. congruence.
    + simpl. intros F' [-> | HF']%elem_of_cons.
      * rewrite lookup_insert_eq. eauto.
      * destruct (decide (F = F')) as [-> | Hne].
        -- rewrite lookup_insert_eq. eauto.
        -- rewrite lookup_insert_ne by done. by apply Hin.
Qed.

Lemma run_loop_returns (functions : list Function) :
  ∀ (m : gmap Function InputDepResType) created,
    NoDup functions →
    (∀ F, F ∈ functions → isLibraryFunction F = false → m !! F = None) →
    ∃ r, run_loop isLibraryFunction analyze functions m created = Ret r.
Proof.
  induction functions as [| F rest IH]; intros m created Hnd Hfree.
  - simpl. eauto.
  - apply NoDup_cons in Hnd as [HF Hnd]. simpl.
    destruct (isLibraryFunction F) eqn:Hlib.
    + apply IH; [exact Hnd |]. intros F' HF'. apply Hfree. by right.
    + rewrite (Hfree F); [| by left | exact Hlib].
      apply IH; [exact Hnd |]. intros F' HF' Hlib'.
      rewrite lookup_insert_ne; [| by intros ->].
      apply Hfree; [by right | exact Hlib'].
Qed.

(** C7. [insertAnalysisInfo] on a function that has an entry returns false
    and leaves the cache as it is; on a function with no entry it stores
    the summary and returns true. A [run()] that returns has constructed at
    most one summary per function, each for a function that had no entry
    and is now registered with it, and has kept every earlier entry; and
    [run()] returns on a module of distinct functions none of which is
    registered yet. *)
Theorem insert_once_and_run_once
    (m_functionAnalisers : gmap Function InputDepResType) (F : Function)
    (analysis_info : InputDepResType) (m_module : list Function) :
  (is_Some (m_functionAnalisers !! F) →
   insertAnalysisInfo m_functionAnalisers F analysis_info
   = (false, m_functionAnalisers))
  ∧ (m_functionAnalisers !! F = None →
     insertAnalysisInfo m_functionAnalisers F analysis_info
     = (true, <[F := analysis_info]> m_functionAnalisers))
  ∧ (∀ m' created,
     run isLibraryFunction analyze m_module m_functionAnalisers
     = Ret (m', created) →
     NoDup created.*1
     ∧ (∀ G res, (G, res) ∈ created →
        m_functionAnalisers !! G = None ∧ m' !! G = Some (Some res))
     ∧ (∀ G h, m_functionAnalisers !! G = Some h → m' !! G = Some h))
  ∧ (NoDup m_module →
     (∀ G, G ∈ m_module → isLibraryFunction G = false →
           m_functionAnalisers !! G = None) →
     ∃ r, run isLibraryFunction analyze m_module m_functionAnalisers
          = Ret r).
Proof.
  split_and!.
  - intros [h Hh]. unfold insertAnalysisInfo. by rewrite Hh.
  - intros Hnone. unfold insertAnalysisInfo. by rewrite Hnone.
  - intros m' created Hrun.
    apply run_loop_invariant in Hrun as (Hnd & _ & Hkeep & Hnew).
    + split_and!; [exact Hnd | | exact Hkeep].
      intros G res [Hin | Hres]%Hnew; [| exact Hres].
      by apply elem_of_nil in Hin.
    + apply NoDup_nil_2.
    + intros G HG. by apply elem_of_nil in HG.
  - intros Hnd Hfree. by apply run_loop_returns.
Qed.

End Registration.

(** C7 on a cache that holds an entry for function 1: a second insertion is
    refused, an insertion for function 2 is stored, and a run over the
    functions 2 and 3 returns. *)
Lemma insert_once_and_run_once_witness :
  let r :=
    InputDependencyResult.mkResult (λ _, false) (λ _, false) false 0 1 0 in
  let m : gmap llvm.Function InputDependencyResult.InputDepResType :=
    {[ 1%N := Some r ]} in
  CachedInputDependencyAnalysis.insertAnalysisInfo m 1%N None = (false, m)
  ∧ CachedInputDependencyAnalysis.insertAnalysisInfo m 2%N (Some r)
    = (true, <[2%N := Some r]> m)
  ∧ ∃ res, CachedInputDependencyAnalysis.run (λ _, false) (λ _, r)
             [2%N; 3%N] m = Ret res.
Proof.
  intros r m.
  pose proof (insert_once_and_run_once (λ _, false) (λ _, r) m 1%N None
                [2%N; 3%N]) as (H1 & _ & _ & H4).
  pose proof (insert_once_and_run_once (λ _, false) (λ _, r) m 2%N (Some r)
                [2%N; 3%N]) as (_ & H2 & _ & _).
  split_and!.
  - apply H1. exists (Some r). apply lookup_singleton_eq.
  - apply H2. apply lookup_singleton_ne. discriminate.
  - apply H4.
    + apply (bool_decide_eq_true_1 _). vm_compute. reflexivity.
    + intros G HG _. apply lookup_singleton_ne. intros <-.
      apply elem_of_cons in HG as [HG | HG]; [discriminate |].
      apply elem_of_cons in HG as [HG | HG]; [discriminate |].
      by apply elem_of_nil in HG.
Defined.

(** A run over a function that already has an entry fails the assertion
    on the result of the insertion. *)
Example run_on_registered_function :
  let r :=
    InputDependencyResult.mkResult (λ _, false) (λ _, false) false 0 1 0 in
  CachedInputDependencyAnalysis.run (λ _, false) (λ _, r) [1%N]
    {[ 1%N := Some r ]} = AssertionFailure.
Proof. reflexivity. Qed.

(** ** C8: resolution of a library model *)

Section Resolution.
Import llvm LibFunctionInfo LibraryInfoManager.

(** C8. A resolution for a name whose model is already resolved returns
    and leaves the table as it is; a resolution for an unresolved model
    binds it to the symbol; and after any resolution that returned, another
    one for the same name, for whatever symbol, leaves the table as it is. *)
Theorem resolveLibFunctionInfo_once
    (m_libraryInfo : gmap string LibFunctionInfo) (F F' : Function)
    (demangledName : string) :
  (∀ libF, m_libraryInfo !! demangledName = Some libF →
     isResolved libF = true →
     resolveLibFunctionInfo m_libraryInfo F demangledName
     = Ret m_libraryInfo)
  ∧ (∀ libF, m_libraryInfo !! demangledName = Some libF →
     isResolved libF = false →
     resolveLibFunctionInfo m_libraryInfo F demangledName
     = Ret (<[demangledName := resolve F libF]> m_libraryInfo))
  ∧ (∀ m', resolveLibFunctionInfo m_libraryInfo F demangledName = Ret m' →
     resolveLibFunctionInfo m' F' demangledName = Ret m').
Proof.
  split_and!.
  - intros libF Hl Hres. unfold resolveLibFunctionInfo, getLibFunctionInfo.
    rewrite Hl. simpl. by rewrite Hres.
  - intros libF Hl Hres. unfold resolveLibFunctionInfo, getLibFunctionInfo.
    rewrite Hl. simpl. by rewrite Hres.
  - intros m'. unfold resolveLibFunctionInfo, getLibFunctionInfo.
    destruct (m_libraryInfo !! demangledName) as [libF|] eqn:Hl; simpl;
      [| discriminate].
    destruct (isResolved libF) eqn:Hres; intros [= <-].
    + rewrite Hl. simpl. by rewrite Hres.
    + rewrite lookup_insert_eq. reflexivity.
Qed.

End Resolution.

(** C8 on a table with one unresolved model: the first resolution binds
    it, the second one is a no-op. *)
Lemma resolveLibFunctionInfo_once_witness :
  let libF :=
    LibFunctionInfo.mkLibFunctionInfo "strlen" false None
      DepInfo.INPUT_INDEP ∅ in
  let m : gmap string LibFunctionInfo.LibFunctionInfo :=
    {[ "strlen" := libF ]} in
  let m' : gmap string LibFunctionInfo.LibFunctionInfo :=
    <["strlen" := LibFunctionInfo.resolve 1%N libF]> m in
  LibraryInfoManager.resolveLibFunctionInfo m 1%N "strlen" = Ret m'
  ∧ LibraryInfoManager.resolveLibFunctionInfo m' 2%N "strlen" = Ret m'
  ∧ LibraryInfoManager.resolveLibFunctionInfo m' 1%N "strlen" = Ret m'.
Proof.
  intros libF m m'.
  assert (H1 : LibraryInfoManager.resolveLibFunctionInfo m 1%N "strlen"
               = Ret m').
  { apply (proj1 (proj2 (resolveLibFunctionInfo_once m 1%N 2%N "strlen"))
             libF); [apply lookup_singleton_eq | reflexivity]. }
  split_and!.
  - exact H1.
  - exact (proj2 (proj2 (resolveLibFunctionInfo_once m 1%N 2%N "strlen"))
             m' H1).
  - apply (proj1 (resolveLibFunctionInfo_once m' 1%N 1%N "strlen")
             (LibFunctionInfo.resolve 1%N libF));
      [apply lookup_insert_eq | reflexivity].
Defined.

(** A resolution for a name that has no model fails the assertion of
    [getLibFunctionInfo]. *)
Example resolveLibFunctionInfo_unknown_name :
  LibraryInfoManager.resolveLibFunctionInfo ∅ 1%N "strlen"
  = AssertionFailure.
Proof. reflexivity. Qed.

(** ** C9: registration of library models *)

Section LibraryTable.
Import llvm LibFunctionInfo LibraryInfoManager.

Variable CLibraryInfo_entries : list LibFunctionInfo.
Variable STLStringInfo_entries : list LibFunctionInfo.
Variable config_file_entries : option (list LibFunctionInfo).

Lemma addLibFunctionInfo_keeps (m : gmap string LibFunctionInfo)
    (funcInfo : LibFunctionInfo) (funcName : string) (old : LibFunctionInfo) :
  m !! funcName = Some old →
  addLibFunctionInfo m funcInfo !! funcName = Some old.
Proof.
  intros Hold. unfold addLibFunctionInfo.
  destruct (m !! getName funcInfo) eqn:Hn; [exact Hold |].
  rewrite lookup_insert_ne; [exact Hold | congruence].
Qed.

Lemma collect_keeps (entries : list LibFunctionInfo) :
  ∀ (m : gmap string LibFunctionInfo) funcName old,
    m !! funcName = Some old → collect entries m !! funcName = Some old.
Proof.
  unfold collect.
  induction entries as [| e entries IH]; intros m funcName old Hold; simpl.
  - exact Hold.
  - by apply IH, addLibFunctionInfo_keeps.
Qed.

(** C9. [addLibFunctionInfo] for a name that is in the table leaves the
    table as it is. Hence a model that is in the table once the two
    built-in libraries are registered is the model under that name at the
    end of [setup], whatever the configuration file holds. *)
Theorem addLibFunctionInfo_no_overwrite
    (m_libraryInfo : gmap string LibFunctionInfo)
    (funcInfo : LibFunctionInfo) :
  (∀ old, m_libraryInfo !! getName funcInfo = Some old →
     addLibFunctionInfo m_libraryInfo funcInfo = m_libraryInfo)
  ∧ (∀ funcName builtin,
     setup_builtin CLibraryInfo_entries STLStringInfo_entries m_libraryInfo
       !! funcName = Some builtin →
     setup CLibraryInfo_entries STLStringInfo_entries config_file_entries
       m_libraryInfo !! funcName = Some builtin).
Proof.
  split.
  - intros old Hold. unfold addLibFunctionInfo. by rewrite Hold.
  - intros funcName builtin Hb. unfold setup.
    destruct config_file_entries as [entries|]; [| exact Hb].
    by apply collect_keeps.
Qed.

End LibraryTable.

(** C9 with a configuration file that redefines [strlen]: the built-in
    model stays. *)
Lemma addLibFunctionInfo_no_overwrite_witness :
  let builtin :=
    LibFunctionInfo.mkLibFunctionInfo "strlen" false None
      DepInfo.INPUT_INDEP ∅ in
  let configured :=
    LibFunctionInfo.mkLibFunctionInfo "strlen" false None
      DepInfo.INPUT_DEP ∅ in
  LibraryInfoManager.addLibFunctionInfo {[ "strlen" := builtin ]} configured
  = {[ "strlen" := builtin ]}
  ∧ LibraryInfoManager.setup [builtin] [] (Some [configured]) ∅ !! "strlen"
    = Some builtin.
Proof.
  intros builtin configured. split.
  - apply (proj1 (addLibFunctionInfo_no_overwrite [] [] None
                    {[ "strlen" := builtin ]} configured) builtin).
    apply lookup_singleton_eq.
  - apply (proj2 (addLibFunctionInfo_no_overwrite [builtin] []
                    (Some [configured]) ∅ configured) "strlen" builtin).
    apply lookup_insert_eq.
Defined.

(** ** C10: the per-module count of the dependency report *)

Section Report.
Import llvm InputDependencyResult InputDependencyStatistics.
#[local] Open Scope Z_scope.

Variable module_getName : string.
Variable Function_getName : Function → string.
Variable Function_blocks : Function → list (list Instruction).

Lemma wrap32_add_l (a b : Z) : wrap32 (wrap32 a + b) = wrap32 (a + b).
Proof. unfold wrap32. apply Z.add_mod_idemp_l. lia. Qed.

Lemma loop_sum (entries : list (Function * InputDepResType)) :
  ∀ l, Forall (λ e, is_Some e.2) entries →
    0 ≤ module_inputdep_instrs l < 2 ^ 32 →
    ∃ l', loop Function_getName Function_blocks entries l = Ret l'
          ∧ module_inputdep_instrs l'
            = wrap32 (module_inputdep_instrs l
                      + sum_input_indep_count entries).
Proof.
  induction entries as [| [F h] rest IH]; intros l Hall Hrange.
  - exists l. split; [reflexivity |]. simpl.
    unfold wrap32. rewrite Z.add_0_r. symmetry. by apply Z.mod_small.
  - apply Forall_cons in Hall as [Hh Hall]. simpl in Hh.
    destruct Hh as [r ->].
    assert (Hbody : ∃ l1,
      loop_body Function_getName Function_blocks l (F, Some r) = Ret l1
      ∧ module_inputdep_instrs l1
        = wrap32 (module_inputdep_instrs l + get_input_indep_count r)).
    { unfold loop_body. simpl.
      destruct (isInputDepFunction r); eexists; split; reflexivity. }
    destruct Hbody as (l1 & Hb & Hacc).
    destruct (IH l1 Hall) as (l' & Hl' & Hsum).
    { rewrite Hacc. unfold wrap32. apply Z.mod_pos_bound. lia. }
    exists l'. split.
    + cbn [loop]. rewrite Hb. exact Hl'.
    + rewrite Hsum, Hacc, wrap32_add_l. simpl. f_equal. lia.
Qed.

(** C10. When every handle of the analysis info points to a result,
    [reportInputDependencyInfo] returns, and the entries it writes for the
    module are, in this order, [NumOfInst], [NumOfInDepInst],
    [NumOfInDepFuncs] and [InputDepFuncs]; the [NumOfInDepInst] entry is the
    sum, in [unsigned] arithmetic, of [get_input_indep_count()] over the
    functions of the analysis info, which is the sum itself when that fits
    an [unsigned]. *)
Theorem NumOfInDepInst_is_indep_sum (st : Statistics)
    (m_IDA : gmap Function InputDepResType)
    (Hhandles : ∀ F h, m_IDA !! F = Some h → is_Some h) :
  let total := sum_input_indep_count (map_to_list m_IDA) in
  let type_name := Some "input_dependency_info"%string in
  ∃ st' all_instrs value functions_count functions,
    reportInputDependencyInfo module_getName Function_getName
      Function_blocks st m_IDA = Ret st'
    ∧ m_entries st'
      = m_entries st
        ++ [mkEntry type_name module_getName "NumOfInst"
              (Unsigned all_instrs);
            mkEntry type_name module_getName "NumOfInDepInst"
              (Unsigned value);
            mkEntry type_name module_getName "NumOfInDepFuncs"
              (Unsigned functions_count);
            mkEntry type_name module_getName "InputDepFuncs"
              (Strings functions)]
    ∧ value = wrap32 total
    ∧ (0 ≤ total < 2 ^ 32 → value = total).
Proof.
  intros total type_name.
  destruct (loop_sum (map_to_list m_IDA) (mkLocals 0 0 0 []))
    as (l & Hl & Hsum).
  - apply Forall_forall. intros [F h] Hin. simpl.
    apply elem_of_map_to_list in Hin. by eapply Hhandles.
  - simpl. lia.
  - exists (report_inputdep_data
              (setStatsTypeName "input_dependency_info" st)
              (mkInputdepData module_getName (module_instructions l)
                 (module_inputdep_instrs l) (inputdep_functions_count_l l)
                 (input_dep_functions l))),
      (module_instructions l), (module_inputdep_instrs l),
      (inputdep_functions_count_l l), (input_dep_functions l).
    split_and!.
    + unfold reportInputDependencyInfo. by rewrite Hl.
    + unfold report_inputdep_data, write_entry, setStatsTypeName. simpl.
      by rewrite <- !app_assoc.
    + rewrite Hsum. reflexivity.
    + intros Hfit. rewrite Hsum. simpl. unfold wrap32.
      by apply Z.mod_small.
Qed.

End Report.

(** C10 on an analysis info of two functions with one and two
    input-independent instructions: the module entry is 3. *)
Lemma NumOfInDepInst_is_indep_sum_witness :
  let r1 :=
    InputDependencyResult.mkResult (λ _, true) (λ _, true) true 5 1 0 in
  let r2 :=
    InputDependencyResult.mkResult (λ _, false) (λ _, false) false 0 2 0 in
  let m_IDA : gmap llvm.Function InputDependencyResult.InputDepResType :=
    {[ 1%N := Some r1; 2%N := Some r2 ]} in
  InputDependencyStatistics.sum_input_indep_count (map_to_list m_IDA) = 3%Z
  ∧ ∃ st' all_instrs functions_count functions,
      InputDependencyStatistics.reportInputDependencyInfo "m" (λ _, "f")
        (λ _, []) (InputDependencyStatistics.mkStatistics None []) m_IDA
      = Ret st'
      ∧ InputDependencyStatistics.m_entries st'
        = [InputDependencyStatistics.mkEntry (Some "input_dependency_info")
             "m" "NumOfInst" (InputDependencyStatistics.Unsigned all_instrs);
           InputDependencyStatistics.mkEntry (Some "input_dependency_info")
             "m" "NumOfInDepInst" (InputDependencyStatistics.Unsigned 3);
           InputDependencyStatistics.mkEntry (Some "input_dependency_info")
             "m" "NumOfInDepFuncs"
             (InputDependencyStatistics.Unsigned functions_count);
           InputDependencyStatistics.mkEntry (Some "input_dependency_info")
             "m" "InputDepFuncs"
             (InputDependencyStatistics.Strings functions)].
Proof.
  intros r1 r2 m_IDA.
  assert (Hsum : InputDependencyStatistics.sum_input_indep_count
                   (map_to_list m_IDA) = 3%Z).
  { vm_compute. reflexivity. }
  split; [exact Hsum |].
  assert (Hhandles : ∀ F h, m_IDA !! F = Some h → is_Some h).
  { intros F h HF. subst m_IDA.
    apply lookup_insert_Some in HF as [[_ <-] | [_ HF]]; [eauto |].
    apply lookup_singleton_Some in HF as [_ <-]. eauto. }
  destruct (NumOfInDepInst_is_indep_sum "m" (λ _, "f"%string) (λ _, [])
              (InputDependencyStatistics.mkStatistics None []) m_IDA Hhandles)
    as (st' & all_instrs & value & functions_count & functions
        & Hrun & Hentries & _ & Hexact).
  exists st', all_instrs, functions_count, functions.
  split; [exact Hrun |].
  rewrite Hentries, Hexact; [reflexivity |].
  rewrite Hsum. lia.
Defined.

(** * Further properties of the embedded code *)

(** ** The module analysis cache: registration and queries compose *)

Section CacheComposition.
Import llvm InputDependencyResult CachedInputDependencyAnalysis.

Variable isLibraryFunction : Function → bool.
Variable analyze : Function → InputDependencyResult.

(** An insertion touches the entry of its function only: every query about
    another function answers as before. After an insertion for a function
    that had no entry, [getAnalysisInfo] returns the inserted handle and the
    queries go to it; and whatever the cache held, a further insertion for
    the function is refused and changes nothing. *)
Theorem insertAnalysisInfo_round_trip
    (m_functionAnalisers : gmap Function InputDepResType) (F : Function)
    (analysis_info other_info : InputDepResType) :
  let m' := (insertAnalysisInfo m_functionAnalisers F analysis_info).2 in
  (∀ G instr block,
     G ≠ F → bb_getParent block ≠ F →
     getAnalysisInfo m' G = getAnalysisInfo m_functionAnalisers G
     ∧ isInputDependent m' G instr
       = isInputDependent m_functionAnalisers G instr
     ∧ isInputDependent_BasicBlock m' block
       = isInputDependent_BasicBlock m_functionAnalisers block)
  ∧ (m_functionAnalisers !! F = None →
     getAnalysisInfo m' F = analysis_info
     ∧ ∀ instr,
         isInputDependent m' F instr
         = deref analysis_info
             (λ r, InputDependencyResult.isInputDependent r instr))
  ∧ insertAnalysisInfo m' F other_info = (false, m').
Proof.
  intros m'. subst m'. unfold insertAnalysisInfo.
  destruct (m_functionAnalisers !! F) as [h|] eqn:HF; simpl.
  - split_and!; [done | done |]. by rewrite HF.
  - split_and!.
    + intros G instr block HG Hb.
      unfold getAnalysisInfo, isInputDependent, isInputDependent_BasicBlock.
      by rewrite !lookup_insert_ne.
    + intros _. unfold getAnalysisInfo, isInputDependent.
      by rewrite !lookup_insert_eq.
    + by rewrite lookup_insert_eq.
Qed.

Lemma run_loop_lookup (functions : list Function) :
  ∀ (m : gmap Function InputDepResType) created m' created' G,
    run_loop isLibraryFunction analyze functions m created
    = Ret (m', created') →
    m' !! G
    = if bool_decide
           (G ∈ filter (λ F, isLibraryFunction F = false) functions)
      then Some (Some (analyze G)) else m !! G.
Proof.
  induction functions as [| F rest IH]; intros m created m' created' G Hrun.
  - simpl in Hrun. injection Hrun as <- <-.
    rewrite bool_decide_eq_false_2; [done | apply not_elem_of_nil].
  - simpl in Hrun. rewrite filter_cons.
    destruct (isLibraryFunction F) eqn:Hlib.
    + rewrite decide_False by done. by eapply IH.
    + rewrite decide_True by done.
      destruct (m !! F) as [h|] eqn:HmF; [discriminate |].
      rewrite (IH _ _ _ _ G Hrun).
      destruct (decide (G = F)) as [-> | HG].
      * rewrite lookup_insert_eq.
        rewrite (bool_decide_eq_true_2 (F ∈ F :: _)); [| by left].
        by case_bool_decide.
      * rewrite lookup_insert_ne by done.
        case_bool_decide as Hin.
        -- rewrite bool_decide_eq_true_2; [done | by right].
        -- rewrite bool_decide_eq_false_2; [done |].
           intros [? | ?]%elem_of_cons; done.
Qed.

(** After a [run()] that returns, a query about a function of the module
    that is not a library function is answered by the summary built for it,
    and every other function has the entry it had before: a library
    function that was not registered before is still reported as not input
    dependent. *)
Theorem run_then_query (m_module : list Function)
    (m_functionAnalisers m' : gmap Function InputDepResType)
    (created : list (Function * InputDependencyResult))
    (Hrun : run isLibraryFunction analyze m_module m_functionAnalisers
            = Ret (m', created)) :
  (∀ G instr,
     G ∈ m_module → isLibraryFunction G = false →
     getAnalysisInfo m' G = Some (analyze G)
     ∧ isInputDependent m' G instr
       = Ret (InputDependencyResult.isInputDependent (analyze G) instr))
  ∧ (∀ G instr,
     (G ∉ m_module ∨ isLibraryFunction G = true) →
     getAnalysisInfo m' G = getAnalysisInfo m_functionAnalisers G
     ∧ isInputDependent m' G instr
       = isInputDependent m_functionAnalisers G instr)
  ∧ (∀ G instr,
     isLibraryFunction G = true → m_functionAnalisers !! G = None →
     isInputDependent m' G instr = Ret false).
Proof.
  assert (Hold : ∀ G, (G ∉ m_module ∨ isLibraryFunction G = true) →
                      m' !! G = m_functionAnalisers !! G).
  { intros G HG. rewrite (run_loop_lookup _ _ _ _ _ G Hrun).
    rewrite bool_decide_eq_false_2; [done |].
    intros [Hlib Hin]%list_elem_of_filter. destruct HG; congruence. }
  split_and!.
  - intros G instr Hin Hlib.
    unfold getAnalysisInfo, isInputDependent.
    rewrite (run_loop_lookup _ _ _ _ _ G Hrun).
    rewrite bool_decide_eq_true_2; [done |].
    by apply list_elem_of_filter.
  - intros G instr HG. unfold getAnalysisInfo, isInputDependent.
    by rewrite (Hold G HG).
  - intros G instr Hlib Hnone. unfold isInputDependent.
    rewrite (Hold G); [by rewrite Hnone | by right].
Qed.

(** The instruction-only query returns exactly when the instruction sits in
    a block of a function, and then it is the query over that function and
    the instruction; an instruction outside any block is a null
    dereference, a block outside any function fails the assertion even
    though the block query on that block returns. *)
Theorem isInputDependent_Instruction_returns
    (m_functionAnalisers : gmap Function InputDepResType)
    (instr : Instruction) (b : bool) :
  (isInputDependent_Instruction m_functionAnalisers instr = Ret b
   ↔ ∃ block, inst_getParent instr = Some block
              ∧ bb_getParent block ≠ nullptr
              ∧ isInputDependent m_functionAnalisers (bb_getParent block)
                  instr = Ret b)
  ∧ (inst_getParent instr = None →
     isInputDependent_Instruction m_functionAnalisers instr
     = NullDereference)
  ∧ (∀ block, inst_getParent instr = Some block →
     bb_getParent block = nullptr →
     isInputDependent_Instruction m_functionAnalisers instr
     = AssertionFailure
     ∧ (m_functionAnalisers !! nullptr = None →
        isInputDependent_BasicBlock m_functionAnalisers block = Ret false)).
Proof.
  unfold isInputDependent_Instruction. split_and!.
  - destruct (inst_getParent instr) as [block|]; simpl.
    + case_decide as HF.
      * split; [discriminate |]. intros (block' & [= <-] & Hne & _). done.
      * split; [eauto |]. by intros (block' & [= <-] & _ & Hq).
    + split; [discriminate |]. by intros (block' & ? & _).
  - by intros ->.
  - intros block -> HF. simpl. rewrite decide_True by done.
    split; [done |]. intros Hnone.
    unfold isInputDependent_BasicBlock. by rewrite HF, Hnone.
Qed.

End CacheComposition.

(** An insertion for function 2 into a cache that holds function 1. *)
Lemma insertAnalysisInfo_round_trip_witness :
  let r :=
    InputDependencyResult.mkResult (λ _, true) (λ _, false) true 1 0 0 in
  let m : gmap llvm.Function InputDependencyResult.InputDepResType :=
    {[ 1%N := None ]} in
  CachedInputDependencyAnalysis.getAnalysisInfo
    (CachedInputDependencyAnalysis.insertAnalysisInfo m 2%N (Some r)).2 2%N
  = Some r
  ∧ CachedInputDependencyAnalysis.getAnalysisInfo
      (CachedInputDependencyAnalysis.insertAnalysisInfo m 2%N (Some r)).2 1%N
    = None.
Proof.
  intros r m.
  pose proof (insertAnalysisInfo_round_trip m 2%N (Some r) None)
    as (Hframe & Hnew & _).
  split.
  - apply Hnew. apply lookup_singleton_ne. discriminate.
  - rewrite (proj1 (Hframe 1%N (llvm.mkInstruction 1 None)
                      (llvm.mkBasicBlock 1 1%N)
                      ltac:(discriminate) ltac:(discriminate))).
    reflexivity.
Defined.

(** A run over a module of a library function 1 and a defined function 2. *)
Lemma run_then_query_witness :
  let r :=
    InputDependencyResult.mkResult (λ _, true) (λ _, false) true 1 0 0 in
  let isLib := λ F : llvm.Function, bool_decide (F = 1%N) in
  ∃ m' created,
    CachedInputDependencyAnalysis.run isLib (λ _, r) [1%N; 2%N] ∅
    = Ret (m', created)
    ∧ CachedInputDependencyAnalysis.isInputDependent m' 2%N
        (llvm.mkInstruction 1 None) = Ret true
    ∧ CachedInputDependencyAnalysis.isInputDependent m' 1%N
        (llvm.mkInstruction 1 None) = Ret false.
Proof.
  intros r isLib.
  exists {[ 2%N := Some r ]}, [(2%N, r)].
  assert (Hrun : CachedInputDependencyAnalysis.run isLib (λ _, r)
                   [1%N; 2%N] ∅ = Ret ({[ 2%N := Some r ]}, [(2%N, r)])).
  { reflexivity. }
  pose proof (run_then_query isLib (λ _, r) [1%N; 2%N] ∅ _ _ Hrun)
    as (Hnew & _ & Hlib).
  split_and!.
  - exact Hrun.
  - apply (Hnew 2%N); [| reflexivity].
    apply list_elem_of_In. right. left. reflexivity.
  - apply Hlib; [reflexivity | apply lookup_empty].
Defined.

(** The instruction-only query on an instruction of a block of function 1. *)
Lemma isInputDependent_Instruction_returns_witness :
  let block := llvm.mkBasicBlock 1 1%N in
  let instr := llvm.mkInstruction 1 (Some block) in
  CachedInputDependencyAnalysis.isInputDependent_Instruction ∅ instr
  = Ret false.
Proof.
  intros block instr.
  apply (proj1 (isInputDependent_Instruction_returns ∅ instr false)).
  exists block. split_and!; [reflexivity | discriminate | reflexivity].
Defined.

(** ** The library-function table: lookups, registration order, frame *)

Section LibraryTableComposition.
Import llvm LibFunctionInfo LibraryInfoManager.

Variable CLibraryInfo_entries : list LibFunctionInfo.
Variable STLStringInfo_entries : list LibFunctionInfo.
Variable config_file_entries : option (list LibFunctionInfo).

(** [hasLibFunctionInfo] is the guard of [getLibFunctionInfo]: the lookup
    returns exactly for the names the guard accepts and fails the assertion
    for the others. After [addLibFunctionInfo] the guard accepts the name of
    the added model and the lookup returns a model: the added one when the
    name was new, the one already there otherwise. Every other name is
    looked up as before. *)
Theorem hasLibFunctionInfo_guards_lookup
    (m_libraryInfo : gmap string LibFunctionInfo)
    (funcInfo : LibFunctionInfo) (funcName : string) :
  (hasLibFunctionInfo m_libraryInfo funcName = true
   ↔ ∃ info, getLibFunctionInfo m_libraryInfo funcName = Ret info)
  ∧ (hasLibFunctionInfo m_libraryInfo funcName = false
     ↔ getLibFunctionInfo m_libraryInfo funcName = AssertionFailure)
  ∧ hasLibFunctionInfo (addLibFunctionInfo m_libraryInfo funcInfo)
      (getName funcInfo) = true
  ∧ getLibFunctionInfo (addLibFunctionInfo m_libraryInfo funcInfo)
      (getName funcInfo)
    = Ret (default funcInfo (m_libraryInfo !! getName funcInfo))
  ∧ (funcName ≠ getName funcInfo →
     getLibFunctionInfo (addLibFunctionInfo m_libraryInfo funcInfo) funcName
     = getLibFunctionInfo m_libraryInfo funcName).
Proof.
  unfold hasLibFunctionInfo, getLibFunctionInfo, addLibFunctionInfo.
  split_and!.
  - rewrite bool_decide_eq_true.
    destruct (m_libraryInfo !! funcName) as [x|]; split.
    + eauto.
    + eauto.
    + by intros [? ?].
    + by intros [? ?].
  - rewrite bool_decide_eq_false.
    destruct (m_libraryInfo !! funcName) as [x|]; split.
    + intros H. destruct H. eauto.
    + discriminate.
    + done.
    + intros _ [? ?]. discriminate.
  - apply bool_decide_eq_true.
    destruct (m_libraryInfo !! getName funcInfo) as [x|] eqn:Hn.
    + rewrite Hn. eauto.
    + rewrite lookup_insert_eq. eauto.
  - destruct (m_libraryInfo !! getName funcInfo) as [x|] eqn:Hn.
    + by rewrite Hn.
    + by rewrite lookup_insert_eq.
  - intros Hne.
    destruct (m_libraryInfo !! getName funcInfo) as [x|] eqn:Hn; [done |].
    by rewrite lookup_insert_ne.
Qed.

Lemma collect_lookup (entries : list LibFunctionInfo) :
  ∀ (m : gmap string LibFunctionInfo) (funcName : string),
    collect entries m !! funcName
    = match m !! funcName with
      | Some info => Some info
      | None => head (filter (λ e, getName e = funcName) entries)
      end.
Proof.
  unfold collect.
  induction entries as [| e entries IH]; intros m funcName; simpl.
  - by destruct (m !! funcName).
  - rewrite IH, filter_cons. unfold addLibFunctionInfo.
    destruct (m !! getName e) as [old|] eqn:He.
    + destruct (m !! funcName) as [x|] eqn:Hn; [done |].
      rewrite decide_False; [done | congruence].
    + destruct (decide (getName e = funcName)) as [<- | Hne].
      * by rewrite lookup_insert_eq, He.
      * by rewrite lookup_insert_ne.
Qed.

Lemma collect_app (l1 l2 : list LibFunctionInfo)
    (m : gmap string LibFunctionInfo) :
  collect (l1 ++ l2) m = collect l2 (collect l1 m).
Proof. unfold collect. apply foldl_app. Qed.

Lemma setup_collect (m : gmap string LibFunctionInfo) :
  setup CLibraryInfo_entries STLStringInfo_entries config_file_entries m
  = collect (CLibraryInfo_entries ++ STLStringInfo_entries
             ++ default [] config_file_entries) m.
Proof.
  unfold setup, setup_builtin. rewrite !collect_app.
  by destruct config_file_entries.
Qed.

(** The first registration of a name wins. After [setup] a name that was in
    the table keeps its model, and a new name has the model of the first
    entry with that name in the order C library, string library,
    configuration file; a name no entry carries stays unknown. *)
Theorem setup_first_registration_wins
    (m_libraryInfo : gmap string LibFunctionInfo) (funcName : string) :
  setup CLibraryInfo_entries STLStringInfo_entries config_file_entries
    m_libraryInfo !! funcName
  = match m_libraryInfo !! funcName with
    | Some info => Some info
    | None =>
        head (filter (λ e, getName e = funcName)
                (CLibraryInfo_entries ++ STLStringInfo_entries
                 ++ default [] config_file_entries))
    end.
Proof. rewrite setup_collect. apply collect_lookup. Qed.

(** Every model is stored under its own name: [addLibFunctionInfo] and
    [setup] keep that, so after the [setup] of a fresh manager a lookup of a
    name returns a model of that name. *)
Theorem setup_keeps_names (m_libraryInfo : gmap string LibFunctionInfo)
    (funcInfo : LibFunctionInfo)
    (Hkeys : ∀ k info, m_libraryInfo !! k = Some info → getName info = k) :
  (∀ k info,
     addLibFunctionInfo m_libraryInfo funcInfo !! k = Some info →
     getName info = k)
  ∧ (∀ k info,
     setup CLibraryInfo_entries STLStringInfo_entries config_file_entries
       m_libraryInfo !! k = Some info →
     getName info = k)
  ∧ (∀ k info,
     getLibFunctionInfo
       (setup CLibraryInfo_entries STLStringInfo_entries
          config_file_entries ∅) k = Ret info →
     getName info = k).
Proof.
  assert (Hsetup : ∀ (m : gmap string LibFunctionInfo),
    (∀ k info, m !! k = Some info → getName info = k) →
    ∀ k info,
      setup CLibraryInfo_entries STLStringInfo_entries config_file_entries m
        !! k = Some info → getName info = k).
  { intros m Hm k info. rewrite setup_first_registration_wins.
    destruct (m !! k) as [x|] eqn:Hk.
    - intros [= <-]. by apply Hm.
    - intros Hhead. apply head_Some_elem_of in Hhead.
      by apply list_elem_of_filter in Hhead as [? _]. }
  split_and!.
  - intros k info. unfold addLibFunctionInfo.
    destruct (m_libraryInfo !! getName funcInfo) as [old|] eqn:Hn.
    + apply Hkeys.
    + destruct (decide (getName funcInfo = k)) as [<- | Hne].
      * rewrite lookup_insert_eq. by intros [= <-].
      * rewrite lookup_insert_ne by done. apply Hkeys.
  - by apply Hsetup.
  - intros k info. unfold getLibFunctionInfo.
    destruct (setup _ _ _ ∅ !! k) as [x|] eqn:Hk; [| discriminate].
    intros [= <-]. eapply Hsetup; [| exact Hk].
    intros k' info'. by rewrite lookup_empty.
Qed.

(** A resolution that returns leaves the set of known names as it was and
    changes no model but the one under the resolved name; a resolution for
    an unknown name fails the assertion and never registers the name. *)
Theorem resolveLibFunctionInfo_frame
    (m_libraryInfo : gmap string LibFunctionInfo) (F : Function)
    (demangledName : string) :
  (∀ m', resolveLibFunctionInfo m_libraryInfo F demangledName = Ret m' →
     (∀ funcName,
        hasLibFunctionInfo m' funcName
        = hasLibFunctionInfo m_libraryInfo funcName)
     ∧ (∀ funcName, funcName ≠ demangledName →
        m' !! funcName = m_libraryInfo !! funcName)
     ∧ hasLibFunctionInfo m_libraryInfo demangledName = true)
  ∧ (hasLibFunctionInfo m_libraryInfo demangledName = false →
     resolveLibFunctionInfo m_libraryInfo F demangledName
     = AssertionFailure).
Proof.
  unfold resolveLibFunctionInfo, getLibFunctionInfo, hasLibFunctionInfo.
  split.
  - intros m'.
    destruct (m_libraryInfo !! demangledName) as [libF|] eqn:Hl; simpl;
      [| discriminate].
    destruct (isResolved libF); intros [= <-].
    + by split_and!.
    + split_and!.
      * intros funcName. apply bool_decide_ext.
        destruct (decide (demangledName = funcName)) as [<- | Hne].
        -- rewrite lookup_insert_eq, Hl. split; eauto.
        -- by rewrite lookup_insert_ne.
      * intros funcName Hne. by rewrite lookup_insert_ne.
      * done.
  - rewrite bool_decide_eq_false. intros Hnone.
    destruct (m_libraryInfo !! demangledName) as [libF|]; [| done].
    destruct Hnone. eauto.
Qed.

End LibraryTableComposition.

(** A manager set up from a table that stores [strlen] under its name. *)
Lemma setup_keeps_names_witness :
  let strlen :=
    LibFunctionInfo.mkLibFunctionInfo "strlen" false None
      DepInfo.INPUT_INDEP ∅ in
  let strcpy :=
    LibFunctionInfo.mkLibFunctionInfo "strcpy" false None
      DepInfo.INPUT_DEP ∅ in
  ∃ info,
    LibraryInfoManager.setup [strcpy] [] None {[ "strlen" := strlen ]}
      !! "strcpy" = Some info
    ∧ LibFunctionInfo.getName info = "strcpy".
Proof.
  intros strlen strcpy.
  assert (Hkeys : ∀ k info,
            ({[ "strlen" := strlen ]}
               : gmap string LibFunctionInfo.LibFunctionInfo) !! k
            = Some info →
            LibFunctionInfo.getName info = k).
  { intros k info [<- <-]%lookup_singleton_Some. reflexivity. }
  assert (Hlookup :
    LibraryInfoManager.setup [strcpy] [] None {[ "strlen" := strlen ]}
      !! "strcpy" = Some strcpy).
  { vm_compute. reflexivity. }
  exists strcpy. split; [exact Hlookup |].
  exact (proj1 (proj2 (setup_keeps_names [strcpy] [] None
                         {[ "strlen" := strlen ]} strcpy Hkeys))
           "strcpy" strcpy Hlookup).
Defined.

(** A resolution of the one model of a table. *)
Lemma resolveLibFunctionInfo_frame_witness :
  let strlen :=
    LibFunctionInfo.mkLibFunctionInfo "strlen" false None
      DepInfo.INPUT_INDEP ∅ in
  let m : gmap string LibFunctionInfo.LibFunctionInfo :=
    {[ "strlen" := strlen ]} in
  LibraryInfoManager.hasLibFunctionInfo
    (<["strlen" := LibFunctionInfo.resolve 1%N strlen]> m) "strcpy"
  = LibraryInfoManager.hasLibFunctionInfo m "strcpy"
  ∧ LibraryInfoManager.resolveLibFunctionInfo m 1%N "strcpy"
    = AssertionFailure.
Proof.
  intros strlen m. split.
  - apply (proj1 (proj1 (resolveLibFunctionInfo_frame m 1%N "strlen")
                    (<["strlen" := LibFunctionInfo.resolve 1%N strlen]> m)
                    eq_refl) "strcpy").
  - apply (proj2 (resolveLibFunctionInfo_frame m 1%N "strcpy")).
    reflexivity.
Defined.

(** ** The non-deterministic reflecting analyser: writes, reads, marks *)

Section ReadAfterWrite.
Import llvm DepInfo Utils NonDeterministicReflectingBasicBlockAnaliser.

Variable Reflecting_getInstructionDependencies :
  Reflecting → Instruction → DepInfo * Reflecting.
Variable Reflecting_getValueDependencies :
  Reflecting → Value → option ValueDepInfo * Reflecting.
Variable Reflecting_updateInstructionDependencies :
  Reflecting → Instruction → DepInfo → Reflecting.
Variable Reflecting_updateValueDependencies :
  Reflecting → Value → ValueDepInfo → bool → Reflecting.

(** Over a base class whose reads return what its writes stored, reading an
    instruction back after [updateInstructionDependencies] yields the
    written dependency merged with the ambient context, and so does reading
    a value back after [updateValueDependencies] for its wrapped
    dependency: the context that the value write leaves out is supplied by
    the read. *)
Theorem read_after_write (a : analiser) (instr : Instruction)
    (value : Value) (info : DepInfo) (vinfo : ValueDepInfo)
    (update_aliases : bool)
    (Hinstr : ∀ b i d,
       (Reflecting_getInstructionDependencies
          (Reflecting_updateInstructionDependencies b i d) i).1 = d)
    (Hvalue : ∀ b v d u,
       (Reflecting_getValueDependencies
          (Reflecting_updateValueDependencies b v d u) v).1 = Some d) :
  (getInstructionDependencies Reflecting_getInstructionDependencies
     (updateInstructionDependencies Reflecting_updateInstructionDependencies
        a instr info) instr).1
  = mergeDependencies info (m_nonDeterministicDeps a)
  ∧ (getValueDependencies Reflecting_getValueDependencies
       (updateValueDependencies Reflecting_updateValueDependencies
          a value vinfo update_aliases) value).1
    = Some (ValueDepInfo.mergeDependencies_DepInfo vinfo
              (m_nonDeterministicDeps a)).
Proof.
  split.
  - unfold getInstructionDependencies, updateInstructionDependencies. simpl.
    specialize (Hinstr (base a) instr (addOnDependencyInfo a info)).
    destruct (Reflecting_getInstructionDependencies _ _) as [d b].
    simpl in Hinstr. subst d.
    rewrite addOnDependencyInfo_naive. unfold naive_read.
    destruct (isInputDep _) eqn:E; simpl; [reflexivity |].
    by rewrite <- mergeDependencies_assoc, mergeDependencies_idemp.
  - unfold getValueDependencies, updateValueDependencies. simpl.
    specialize (Hvalue (base a) value vinfo update_aliases).
    destruct (Reflecting_getValueDependencies _ _) as [r b].
    simpl in Hvalue. subst r.
    destruct (ValueDepInfo.isInputDep vinfo) eqn:E; simpl; [| done].
    by rewrite mergeDependencies_DepInfo_skip.
Qed.

End ReadAfterWrite.

Section Marks.
Import llvm DepInfo Utils NonDeterministicReflectingBasicBlockAnaliser.

Variable Reflecting_finalizeResults :
  Reflecting → ArgumentDependenciesMap → Reflecting.
Variable BasicBlockAnalysisResult_finalizeGlobals :
  Reflecting → GlobalVariableDependencyMap → Reflecting.

(** The mark of the block after a finalize pass is the mark the pass of the
    base class left, raised by [finalizeResults] exactly when the ambient
    context is [INPUT_DEP] or an [INPUT_ARG_DEP] that intersects the
    confirmed arguments, and by [finalizeGlobals] exactly when its early
    return is not taken (the context is value dependent or carries a value
    set) and the promoted context is [INPUT_DEP]. When the early return is
    taken the context is left as it is. Neither pass touches the stored
    dependencies the base class left, and [finalizeResults] leaves the
    ambient context as it is. *)
Theorem finalize_mark_exact (a : analiser)
    (dependentArgs : ArgumentDependenciesMap)
    (globalsDeps : GlobalVariableDependencyMap) :
  let nonDet := m_nonDeterministicDeps a in
  let early_return :=
    negb (isValueDep nonDet)
    && bool_decide (DepInfo.getValueDependencies nonDet = ∅) in
  let b1 := Reflecting_finalizeResults (base a) dependentArgs in
  let a1 := finalizeResults Reflecting_finalizeResults a dependentArgs in
  let b2 := BasicBlockAnalysisResult_finalizeGlobals (base a) globalsDeps in
  let a2 :=
    finalizeGlobals BasicBlockAnalysisResult_finalizeGlobals a globalsDeps in
  ReflectingBasicBlockAnaliser.m_is_inputDep (base a1)
  = ReflectingBasicBlockAnaliser.m_is_inputDep b1
    || isInputDep nonDet
    || (isInputArgumentDep nonDet
        && haveIntersection dependentArgs (getArgumentDependencies nonDet))
  ∧ ReflectingBasicBlockAnaliser.m_is_inputDep (base a2)
    = ReflectingBasicBlockAnaliser.m_is_inputDep b2
      || (negb early_return
          && isInputDep (finalizeValueDependencies globalsDeps nonDet))
  ∧ m_nonDeterministicDeps a2
    = (if early_return then nonDet
       else finalizeValueDependencies globalsDeps nonDet)
  ∧ m_nonDeterministicDeps a1 = nonDet
  ∧ ReflectingBasicBlockAnaliser.m_valueDependencies (base a1)
    = ReflectingBasicBlockAnaliser.m_valueDependencies b1
  ∧ ReflectingBasicBlockAnaliser.m_inputDependentInstrs (base a1)
    = ReflectingBasicBlockAnaliser.m_inputDependentInstrs b1
  ∧ ReflectingBasicBlockAnaliser.m_valueDependencies (base a2)
    = ReflectingBasicBlockAnaliser.m_valueDependencies b2
  ∧ ReflectingBasicBlockAnaliser.m_inputDependentInstrs (base a2)
    = ReflectingBasicBlockAnaliser.m_inputDependentInstrs b2.
Proof.
  intros nonDet early_return b1 a1 b2 a2. subst a1 a2.
  unfold finalizeResults, finalizeGlobals. fold nonDet b1 b2 early_return.
  destruct b1 as [f1 v1 i1 r1], b2 as [f2 v2 i2 r2].
  generalize (finalizeValueDependencies globalsDeps nonDet).
  generalize (haveIntersection dependentArgs (getArgumentDependencies nonDet)).
  intros inter promoted.
  destruct early_return, (isInputDep nonDet), (isInputArgumentDep nonDet),
    inter; simpl;
    split_and!; try done; by rewrite ?orb_false_r, ?orb_true_r.
Qed.

End Marks.

(** Reading back over the store of maps: the instruction map read with
    [INPUT_INDEP] for a missing entry, the value map read as it is. *)
Lemma read_after_write_witness :
  let geti :=
    λ (b : ReflectingBasicBlockAnaliser.analiser) (i : llvm.Instruction),
      (default DepInfo.INPUT_INDEP
         (ReflectingBasicBlockAnaliser.m_inputDependentInstrs b !! i), b) in
  let getv :=
    λ (b : ReflectingBasicBlockAnaliser.analiser) (v : llvm.Value),
      (ReflectingBasicBlockAnaliser.m_valueDependencies b !! v, b) in
  let info := ValueDepInfo.mkValueDepInfo DepInfo.INPUT_INDEP ∅ in
  let a :=
    NonDeterministicReflectingBasicBlockAnaliser.mkAnaliser
      (ReflectingBasicBlockAnaliser.mkAnaliser false ∅ ∅ info)
      (DepInfo.INPUT_ARG_DEP {[1%positive]}) in
  (NonDeterministicReflectingBasicBlockAnaliser.getValueDependencies getv
     (NonDeterministicReflectingBasicBlockAnaliser.updateValueDependencies
        ReflectingBasicBlockAnaliser.updateValueDependencies
        a 2%positive info false) 2%positive).1
  = Some (ValueDepInfo.mkValueDepInfo
            (DepInfo.INPUT_ARG_DEP {[1%positive]}) ∅).
Proof.
  intros geti getv info a.
  apply (proj2 (read_after_write geti getv
                  ReflectingBasicBlockAnaliser.updateInstructionDependencies
                  ReflectingBasicBlockAnaliser.updateValueDependencies
                  a (llvm.mkInstruction 1 None) 2%positive
                  DepInfo.INPUT_INDEP info false
                  ltac:(intros b i d; simpl; by rewrite lookup_insert_eq)
                  ltac:(intros b v d u; simpl; by rewrite lookup_insert_eq))).
Defined.

(** ** The statistics: instruction counts and the ratio report *)

Section RatioReport.
Import llvm InputDependencyResult InputDependencyStatistics.
Import InputDependencyStatisticsReports.
#[local] Open Scope Z_scope.

Variable module_getName : string.
Variable m_module : list Function.
Variable Function_getName : Function → string.
Variable Function_blocks : Function → list (list Instruction).

Lemma wrap32_idemp (a : Z) : wrap32 (wrap32 a) = wrap32 a.
Proof. unfold wrap32. apply Z.mod_mod. lia. Qed.

Lemma wrap32_add_r (a b : Z) : wrap32 (a + wrap32 b) = wrap32 (a + b).
Proof. unfold wrap32. apply Z.add_mod_idemp_r. lia. Qed.

Lemma wrap32_small (a : Z) : 0 ≤ a < 2 ^ 32 → wrap32 a = a.
Proof. unfold wrap32. apply Z.mod_small. Qed.

Lemma count_blocks (blocks : list (list Instruction)) :
  ∀ count,
    wrap32 count = count →
    foldl (λ count B, wrap32 (count + Z.of_nat (length B))) count blocks
    = wrap32 (count + Z.of_nat (length (concat blocks))).
Proof.
  induction blocks as [| B blocks IH]; intros count Hcount; simpl.
  - by rewrite Z.add_0_r.
  - rewrite IH by apply wrap32_idemp.
    rewrite wrap32_add_l, length_app. f_equal. lia.
Qed.

(** [get_function_instrs_count] is the number of instructions of all the
    blocks of the function, reduced modulo 2^32; for a function of fewer
    than 2^32 instructions it is that number. *)
Theorem get_function_instrs_count_total (F : Function) :
  let total := Z.of_nat (length (concat (Function_blocks F))) in
  get_function_instrs_count Function_blocks F = wrap32 total
  ∧ (total < 2 ^ 32 → get_function_instrs_count Function_blocks F = total).
Proof.
  intros total.
  assert (H : get_function_instrs_count Function_blocks F = wrap32 total).
  { unfold get_function_instrs_count. by rewrite count_blocks. }
  split; [exact H |].
  intros Hfit. rewrite H. apply wrap32_small. lia.
Qed.

(** [report_inputdepindep_data] divides by the number of instructions it
    reports: when that number is zero the report divides by zero. When the
    three counts are not negative, their sum is positive and they and a
    hundred times the dependent count fit an [unsigned], the report
    returns, and it has written the sum, the three counts and a ratio that
    is the percentage of dependent instructions, between 0 and 100. *)
Theorem report_inputdepindep_data_ratio (st : Statistics)
    (data : inputdepindep_data) :
  let d := input_deps_count data in
  let i := input_indeps_count data in
  let u := unknowns_count data in
  (wrap32 (wrap32 (d + i) + u) = 0 →
   report_inputdepindep_data st data = DivisionByZero)
  ∧ (0 ≤ d → 0 ≤ i → 0 ≤ u → 0 < d + i + u < 2 ^ 32 → d * 100 < 2 ^ 32 →
     ∃ ratio,
       report_inputdepindep_data st data
       = Done (mkStatistics (m_stats_type_name st)
                 (m_entries st
                  ++ [mkEntry (m_stats_type_name st)
                        (InputDependencyStatisticsReports.name data)
                        "Instructions" (Unsigned (d + i + u));
                      mkEntry (m_stats_type_name st)
                        (InputDependencyStatisticsReports.name data)
                        "NumInputDep" (Unsigned d);
                      mkEntry (m_stats_type_name st)
                        (InputDependencyStatisticsReports.name data)
                        "NumInputInDep" (Unsigned i);
                      mkEntry (m_stats_type_name st)
                        (InputDependencyStatisticsReports.name data)
                        "NumUnknowns" (Unsigned u);
                      mkEntry (m_stats_type_name st)
                        (InputDependencyStatisticsReports.name data)
                        "Ratio" (Unsigned ratio)]))
       ∧ ratio = d * 100 / (d + i + u)
       ∧ 0 ≤ ratio ≤ 100).
Proof.
  intros d i u. unfold report_inputdepindep_data. fold d i u. split.
  - intros ->. reflexivity.
  - intros Hd Hi Hu Hsum Hmul.
    assert (Htotal : wrap32 (wrap32 (d + i) + u) = d + i + u).
    { rewrite wrap32_add_l. apply wrap32_small. lia. }
    rewrite Htotal, (wrap32_small (d * 100)) by lia.
    unfold udiv. rewrite decide_False by lia. simpl.
    exists (d * 100 / (d + i + u)). split_and!.
    + unfold write_entry. simpl. by rewrite <- !app_assoc.
    + reflexivity.
    + apply Z.div_pos; lia.
    + apply Z.div_le_upper_bound; lia.
Qed.

Lemma ratio_loop_unregistered (m_IDA : InputDependencyAnalysisInfo)
    (functions : list Function) :
  ∀ st l,
    (∀ F, F ∈ functions → m_IDA !! F = None) →
    ratio_loop Function_getName functions m_IDA st l = Done (st, l).
Proof.
  induction functions as [| F rest IH]; intros st l Hnone; simpl.
  - reflexivity.
  - rewrite (Hnone F) by (by left). apply IH.
    intros G HG. apply Hnone. by right.
Qed.

Lemma ratio_loop_sums (m_IDA : InputDependencyAnalysisInfo)
    (functions : list Function) :
  ∀ st l st' l',
    ratio_loop Function_getName functions m_IDA st l = Done (st', l') →
    wrap32 (module_dep_count l') 
    = wrap32 (module_dep_count l
              + sum_registered (λ r, get_input_dep_count (answers r))
                  m_IDA functions)
    ∧ wrap32 (module_indep_count l')
      = wrap32 (module_indep_count l
                + sum_registered (λ r, get_input_indep_count (answers r))
                    m_IDA functions)
    ∧ wrap32 (module_unknown_count l')
      = wrap32 (module_unknown_count l
                + sum_registered (λ r, get_input_unknowns_count (answers r))
                    m_IDA functions).
Proof.
  induction functions as [| F rest IH]; intros st l st' l' Hloop.
  - simpl in Hloop. injection Hloop as <- <-. simpl.
    by rewrite !Z.add_0_r.
  - simpl in Hloop. simpl.
    destruct (m_IDA !! F) as [[r|]|] eqn:HF; simpl in Hloop.
    + destruct (report_inputdepindep_data _ _) as [st1| | |];
        simpl in Hloop; try discriminate.
      apply IH in Hloop as (Hd & Hi & Hu). simpl in Hd, Hi, Hu.
      rewrite Hd, Hi, Hu, !wrap32_add_l.
      split_and!; f_equal; lia.
    + discriminate.
    + by apply IH in Hloop.
Qed.

Lemma ratio_loop_range (m_IDA : InputDependencyAnalysisInfo)
    (functions : list Function) :
  ∀ st l st' l',
    ratio_loop Function_getName functions m_IDA st l = Done (st', l') →
    wrap32 (module_dep_count l) = module_dep_count l →
    wrap32 (module_indep_count l) = module_indep_count l →
    wrap32 (module_unknown_count l) = module_unknown_count l →
    wrap32 (module_dep_count l') = module_dep_count l'
    ∧ wrap32 (module_indep_count l') = module_indep_count l'
    ∧ wrap32 (module_unknown_count l') = module_unknown_count l'.
Proof.
  induction functions as [| F rest IH]; intros st l st' l' Hloop Hd Hi Hu.
  - simpl in Hloop. by injection Hloop as <- <-.
  - simpl in Hloop.
    destruct (m_IDA !! F) as [[r|]|] eqn:HF; simpl in Hloop.
    + destruct (report_inputdepindep_data _ _) as [st1| | |];
        simpl in Hloop; try discriminate.
      apply IH in Hloop; [done | | |]; simpl; apply wrap32_idemp.
    + discriminate.
    + by apply IH in Hloop.
Qed.

(** When [reportInputDepInputIndepRatio] returns, the last five entries it
    has written are those of the module, and the three counts among them
    are the sums, in [unsigned] arithmetic, of the counts of the functions
    of the module that the analysis info holds a result for; the stats type
    name is unset. *)
Theorem reportInputDepInputIndepRatio_module_sums (st st' : Statistics)
    (m_IDA : InputDependencyAnalysisInfo)
    (Hreturns :
       reportInputDepInputIndepRatio module_getName m_module
         Function_getName st m_IDA = Done st') :
  let deps :=
    sum_registered (λ r, get_input_dep_count (answers r)) m_IDA m_module in
  let indeps :=
    sum_registered (λ r, get_input_indep_count (answers r)) m_IDA m_module in
  let unknowns :=
    sum_registered (λ r, get_input_unknowns_count (answers r)) m_IDA
      m_module in
  let type_name := Some "input_dep_indep_ratio"%string in
  m_stats_type_name st' = None
  ∧ ∃ before ratio,
      m_entries st'
      = before
        ++ [mkEntry type_name module_getName "Instructions"
              (Unsigned (wrap32 (deps + indeps + unknowns)));
            mkEntry type_name module_getName "NumInputDep"
              (Unsigned (wrap32 deps));
            mkEntry type_name module_getName "NumInputInDep"
              (Unsigned (wrap32 indeps));
            mkEntry type_name module_getName "NumUnknowns"
              (Unsigned (wrap32 unknowns));
            mkEntry type_name module_getName "Ratio" (Unsigned ratio)].
Proof.
  intros deps indeps unknowns type_name.
  unfold reportInputDepInputIndepRatio in Hreturns.
  destruct (ratio_loop _ _ _ _ _) as [[st1 l]| | |] eqn:Hloop;
    simpl in Hreturns; try discriminate.
  pose proof (ratio_loop_sums _ _ _ _ _ _ Hloop) as (Hd & Hi & Hu).
  pose proof (ratio_loop_range _ _ _ _ _ _ Hloop eq_refl eq_refl eq_refl)
    as (Rd & Ri & Ru).
  rewrite Rd in Hd. rewrite Ri in Hi. rewrite Ru in Hu.
  simpl in Hd, Hi, Hu. fold deps in Hd. fold indeps in Hi.
  fold unknowns in Hu.
  assert (Htype : m_stats_type_name st1 = type_name).
  { clear -Hloop. revert Hloop.
    generalize (mkRatioLocals 0 0 0).
    assert (Hn : m_stats_type_name
              (setStatsTypeName "input_dep_indep_ratio" st) = type_name)
      by reflexivity.
    revert Hn. generalize (setStatsTypeName "input_dep_indep_ratio" st).
    induction m_module as [| F rest IH]; intros st0 Hn l0 Hloop.
    - simpl in Hloop. by injection Hloop as <- <-.
    - simpl in Hloop.
      destruct (m_IDA !! F) as [[r|]|]; simpl in Hloop;
        [| discriminate | by eapply IH].
      unfold report_inputdepindep_data in Hloop.
      destruct (udiv _ _) as [p| | |]; simpl in Hloop; try discriminate.
      eapply IH; [| exact Hloop]. exact Hn. }
  unfold report_inputdepindep_data in Hreturns. simpl in Hreturns.
  destruct (udiv _ _) as [ratio| | |]; simpl in Hreturns; try discriminate.
  injection Hreturns as <-. split; [reflexivity |].
  exists (m_entries st1), ratio.
  unfold write_entry, unsetStatsTypeName. simpl.
  rewrite <- !app_assoc. simpl. rewrite Htype, Hd, Hi, Hu, !Z.add_0_l.
  do 3 f_equal.
  rewrite (wrap32_add_l deps (wrap32 indeps)), (wrap32_add_r deps indeps).
  by rewrite (wrap32_add_l (deps + indeps)), wrap32_add_r.
Qed.

End RatioReport.

(** ** The statistics: the coverage reports and their caches *)

Section CoverageReports.
Import llvm InputDependencyResult InputDependencyStatistics.
Import InputDependencyStatisticsReports.
#[local] Open Scope Z_scope.

Variable module_getName : string.
Variable m_module : list Function.
Variable Function_getName : Function → string.
Variable Function_blocks : Function → list (list Instruction).

Lemma dep_coverage_loop_unregistered (m_IDA : InputDependencyAnalysisInfo)
    (functions : list Function) :
  ∀ s data,
    (∀ F, F ∈ functions → m_IDA !! F = None) →
    dep_coverage_loop Function_getName Function_blocks functions m_IDA s data
    = Done (s, data).
Proof.
  induction functions as [| F rest IH]; intros s data Hnone; simpl.
  - reflexivity.
  - rewrite (Hnone F) by (by left). apply IH.
    intros G HG. apply Hnone. by right.
Qed.

Lemma indep_coverage_loop_unregistered (m_IDA : InputDependencyAnalysisInfo)
    (functions : list Function) :
  ∀ s data,
    (∀ F, F ∈ functions → m_IDA !! F = None) →
    indep_coverage_loop Function_getName Function_blocks functions m_IDA s
      data = Done (s, data).
Proof.
  induction functions as [| F rest IH]; intros s data Hnone; simpl.
  - reflexivity.
  - rewrite (Hnone F) by (by left). apply IH.
    intros G HG. apply Hnone. by right.
Qed.

(** On a module none of whose functions has an entry in the analysis info
    (an empty module, or one of declarations only) the ratio report and the
    two coverage reports divide by zero when they come to the entry of the
    module, and so does [report()], which starts with the ratio report. *)
Theorem reports_divide_by_zero (s : statistics)
    (m_IDA : InputDependencyAnalysisInfo)
    (Hnone : ∀ F, F ∈ m_module → m_IDA !! F = None) :
  reportInputDepInputIndepRatio module_getName m_module Function_getName
    (stats s) m_IDA = DivisionByZero
  ∧ reportInputDepCoverage module_getName m_module Function_getName
      Function_blocks s m_IDA = DivisionByZero
  ∧ reportInputInDepCoverage module_getName m_module Function_getName
      Function_blocks s m_IDA = DivisionByZero
  ∧ report module_getName m_module Function_getName Function_blocks s m_IDA
    = DivisionByZero.
Proof.
  assert (Hratio : ∀ st,
    reportInputDepInputIndepRatio module_getName m_module Function_getName
      st m_IDA = DivisionByZero).
  { intros st. unfold reportInputDepInputIndepRatio.
    by rewrite ratio_loop_unregistered. }
  split_and!.
  - apply Hratio.
  - unfold reportInputDepCoverage.
    by rewrite dep_coverage_loop_unregistered.
  - unfold reportInputInDepCoverage.
    by rewrite indep_coverage_loop_unregistered.
  - unfold report. by rewrite Hratio.
Qed.

Lemma caches_agree_insert_dep (s : statistics) (st : Statistics)
    (F : Function) (cov : input_dep_coverage_data.t) :
  caches_agree s →
  (∀ i, m_function_input_indep_coverage_data s !! F = Some i →
        same_totals cov i) →
  caches_agree
    (mkStatisticsObject st (m_function_input_indep_coverage_data s)
       (<[F := cov]> (m_function_input_dep_coverage_data s))).
Proof.
  intros Hagree Hcov G d i. simpl.
  destruct (decide (F = G)) as [<- | Hne].
  - rewrite lookup_insert_eq. intros [= <-]. apply Hcov.
  - rewrite lookup_insert_ne by done. apply Hagree.
Qed.

Lemma caches_agree_insert_indep (s : statistics) (st : Statistics)
    (F : Function) (cov : input_indep_coverage_data.t) :
  caches_agree s →
  (∀ d, m_function_input_dep_coverage_data s !! F = Some d →
        same_totals d cov) →
  caches_agree
    (mkStatisticsObject st
       (<[F := cov]> (m_function_input_indep_coverage_data s))
       (m_function_input_dep_coverage_data s)).
Proof.
  intros Hagree Hcov G d i. simpl.
  destruct (decide (F = G)) as [<- | Hne].
  - rewrite lookup_insert_eq. intros Hd [= <-]. by apply Hcov.
  - rewrite lookup_insert_ne by done. apply Hagree.
Qed.

Lemma dep_coverage_loop_caches (m_IDA : InputDependencyAnalysisInfo)
    (functions : list Function) :
  ∀ s data s' data',
    dep_coverage_loop Function_getName Function_blocks functions m_IDA s data
    = Done (s', data') →
    m_function_input_indep_coverage_data s'
    = m_function_input_indep_coverage_data s
    ∧ m_function_input_dep_coverage_data s
      ⊆ m_function_input_dep_coverage_data s'
    ∧ (∀ F, F ∈ functions → is_Some (m_IDA !! F) →
       is_Some (m_function_input_dep_coverage_data s' !! F))
    ∧ (caches_agree s → caches_agree s').
Proof.
  induction functions as [| F rest IH]; intros s data s' data' Hloop.
  - simpl in Hloop. injection Hloop as <- <-.
    split_and!; [done | done | | done].
    intros F HF. by apply elem_of_nil in HF.
  - simpl in Hloop. destruct (m_IDA !! F) as [FA|] eqn:HF.
    + destruct (m_function_input_dep_coverage_data s !! F)
        as [cached|] eqn:Hcached.
      * destruct (report_input_dep_coverage_data _ _) as [st| | |];
          simpl in Hloop; try discriminate.
        apply IH in Hloop as (Hi & Hd & Hc & Ha). simpl in *.
        split_and!; [done | done | | done].
        intros G [-> | HG]%elem_of_cons HG'; [| by apply Hc].
        exists cached. by eapply lookup_weaken.
      * destruct FA as [r|]; simpl in Hloop; [| discriminate].
        destruct (m_function_input_indep_coverage_data s !! F)
          as [cov|] eqn:Hcov;
          destruct (isInputDepFunction (answers r)); simpl in Hloop;
          destruct (report_input_dep_coverage_data _ _) as [st| | |];
          simpl in Hloop; try discriminate;
          apply IH in Hloop as (Hi & Hd & Hc & Ha); simpl in *;
          (split_and!;
           [ done
           | etrans; [by apply insert_subseteq | done]
           | intros G [-> | HG]%elem_of_cons HG'; [| by apply Hc];
             eexists; eapply lookup_weaken; [apply lookup_insert_eq | done]
           | intros Hagree; apply Ha, caches_agree_insert_dep;
             [done | intros i; rewrite Hcov; intros [= <-]; by repeat split]
           ]).
    + apply IH in Hloop as (Hi & Hd & Hc & Ha).
      split_and!; [done | done | | done].
      intros G [-> | HG]%elem_of_cons HG'; [| by apply Hc].
      rewrite HF in HG'. by destruct HG'.
Qed.

Lemma indep_coverage_loop_caches (m_IDA : InputDependencyAnalysisInfo)
    (functions : list Function) :
  ∀ s data s' data',
    indep_coverage_loop Function_getName Function_blocks functions m_IDA s
      data = Done (s', data') →
    m_function_input_dep_coverage_data s'
    = m_function_input_dep_coverage_data s
    ∧ m_function_input_indep_coverage_data s
      ⊆ m_function_input_indep_coverage_data s'
    ∧ (∀ F, F ∈ functions → is_Some (m_IDA !! F) →
       is_Some (m_function_input_indep_coverage_data s' !! F))
    ∧ (caches_agree s → caches_agree s').
Proof.
  induction functions as [| F rest IH]; intros s data s' data' Hloop.
  - simpl in Hloop. injection Hloop as <- <-.
    split_and!; [done | done | | done].
    intros F HF. by apply elem_of_nil in HF.
  - simpl in Hloop. destruct (m_IDA !! F) as [FA|] eqn:HF.
    + destruct (m_function_input_indep_coverage_data s !! F)
        as [cached|] eqn:Hcached.
      * destruct (report_input_indep_coverage_data _ _) as [st| | |];
          simpl in Hloop; try discriminate.
        apply IH in Hloop as (Hi & Hd & Hc & Ha). simpl in *.
        split_and!; [done | done | | done].
        intros G [-> | HG]%elem_of_cons HG'; [| by apply Hc].
        exists cached. by eapply lookup_weaken.
      * destruct FA as [r|]; simpl in Hloop; [| discriminate].
        destruct (m_function_input_dep_coverage_data s !! F)
          as [cov|] eqn:Hcov; simpl in Hloop;
          destruct (report_input_indep_coverage_data _ _) as [st| | |];
          simpl in Hloop; try discriminate;
          apply IH in Hloop as (Hi & Hd & Hc & Ha); simpl in *;
          (split_and!;
           [ done
           | etrans; [by apply insert_subseteq | done]
           | intros G [-> | HG]%elem_of_cons HG'; [| by apply Hc];
             eexists; eapply lookup_weaken; [apply lookup_insert_eq | done]
           | intros Hagree; apply Ha, caches_agree_insert_indep;
             [done | intros d; rewrite Hcov; intros [= <-]; by repeat split]
           ]).
    + apply IH in Hloop as (Hi & Hd & Hc & Ha).
      split_and!; [done | done | | done].
      intros G [-> | HG]%elem_of_cons HG'; [| by apply Hc].
      rewrite HF in HG'. by destruct HG'.
Qed.

End CoverageReports.

Section CoverageCaches.
Import llvm InputDependencyResult InputDependencyStatistics.
Import InputDependencyStatisticsReports.
#[local] Open Scope Z_scope.

Variable module_getName : string.
Variable m_module : list Function.
Variable Function_getName : Function → string.
Variable Function_blocks : Function → list (list Instruction).

Lemma coverage_reports_fill_caches_aux_dep (s s' : statistics)
    (m_IDA : InputDependencyAnalysisInfo) :
  reportInputDepCoverage module_getName m_module Function_getName
    Function_blocks s m_IDA = Done s' →
  ∀ F, F ∈ m_module → is_Some (m_IDA !! F) →
       is_Some (m_function_input_dep_coverage_data s' !! F).
Proof.
  unfold reportInputDepCoverage. intros Hrun.
  destruct (dep_coverage_loop _ _ _ _ _ _) as [[s1 data]| | |] eqn:Hloop;
    simpl in Hrun; try discriminate.
  destruct (report_input_dep_coverage_data _ _) as [st| | |];
    simpl in Hrun; try discriminate.
  injection Hrun as <-.
  by apply dep_coverage_loop_caches in Hloop as (_ & _ & Hc & _).
Qed.

Lemma coverage_reports_fill_caches_aux_indep (s s' : statistics)
    (m_IDA : InputDependencyAnalysisInfo) :
  reportInputInDepCoverage module_getName m_module Function_getName
    Function_blocks s m_IDA = Done s' →
  ∀ F, F ∈ m_module → is_Some (m_IDA !! F) →
       is_Some (m_function_input_indep_coverage_data s' !! F).
Proof.
  unfold reportInputInDepCoverage. intros Hrun.
  destruct (indep_coverage_loop _ _ _ _ _ _) as [[s1 data]| | |] eqn:Hloop;
    simpl in Hrun; try discriminate.
  destruct (report_input_indep_coverage_data _ _) as [st| | |];
    simpl in Hrun; try discriminate.
  injection Hrun as <-.
  by apply indep_coverage_loop_caches in Hloop as (_ & _ & Hc & _).
Qed.

(** A coverage report that returns has only added to its own cache: the
    other cache is as it was, no cached record was replaced, and every
    function of the module with an entry in the analysis info has a cached
    record afterwards. If the two caches agreed on the block and
    instruction totals of the functions both hold, they still do: a record
    built while the other cache holds the function takes its totals from
    there. *)
Theorem coverage_reports_fill_caches (s s' : statistics)
    (m_IDA : InputDependencyAnalysisInfo) :
  (reportInputDepCoverage module_getName m_module Function_getName
     Function_blocks s m_IDA = Done s' →
   m_function_input_indep_coverage_data s'
   = m_function_input_indep_coverage_data s
   ∧ m_function_input_dep_coverage_data s
     ⊆ m_function_input_dep_coverage_data s'
   ∧ (∀ F, F ∈ m_module → is_Some (m_IDA !! F) →
      is_Some (m_function_input_dep_coverage_data s' !! F))
   ∧ (caches_agree s → caches_agree s'))
  ∧ (reportInputInDepCoverage module_getName m_module Function_getName
       Function_blocks s m_IDA = Done s' →
     m_function_input_dep_coverage_data s'
     = m_function_input_dep_coverage_data s
     ∧ m_function_input_indep_coverage_data s
       ⊆ m_function_input_indep_coverage_data s'
     ∧ (∀ F, F ∈ m_module → is_Some (m_IDA !! F) →
        is_Some (m_function_input_indep_coverage_data s' !! F))
     ∧ (caches_agree s → caches_agree s')).
Proof.
  split.
  - unfold reportInputDepCoverage. intros Hrun.
    destruct (dep_coverage_loop _ _ _ _ _ _) as [[s1 data]| | |] eqn:Hloop;
      simpl in Hrun; try discriminate.
    destruct (report_input_dep_coverage_data _ _) as [st| | |];
      simpl in Hrun; try discriminate.
    injection Hrun as <-.
    apply dep_coverage_loop_caches in Hloop as (Hi & Hd & Hc & Ha).
    simpl in *. split_and!; [done | done | done |].
    intros Hagree F d i Hd' Hi'. simpl in *.
    eapply (Ha (λ F d i, Hagree F d i)); eassumption.
  - unfold reportInputInDepCoverage. intros Hrun.
    destruct (indep_coverage_loop _ _ _ _ _ _) as [[s1 data]| | |] eqn:Hloop;
      simpl in Hrun; try discriminate.
    destruct (report_input_indep_coverage_data _ _) as [st| | |];
      simpl in Hrun; try discriminate.
    injection Hrun as <-.
    apply indep_coverage_loop_caches in Hloop as (Hi & Hd & Hc & Ha).
    simpl in *. split_and!; [done | done | done |].
    intros Hagree F d i Hd' Hi'. simpl in *.
    eapply (Ha (λ F d i, Hagree F d i)); eassumption.
Qed.

Lemma dep_coverage_loop_replay (m_IDA m_IDA' : InputDependencyAnalysisInfo)
    (functions : list Function) :
  ∀ s data,
    (∀ F, F ∈ functions → is_Some (m_IDA !! F) →
          is_Some (m_function_input_dep_coverage_data s !! F)) →
    (∀ F, F ∈ functions → is_Some (m_IDA !! F) ↔ is_Some (m_IDA' !! F)) →
    dep_coverage_loop Function_getName Function_blocks functions m_IDA' s
      data
    = dep_coverage_loop Function_getName Function_blocks functions m_IDA s
        data.
Proof.
  induction functions as [| F rest IH]; intros s data Hcached Hsame.
  - reflexivity.
  - simpl. destruct (m_IDA !! F) as [FA|] eqn:HF.
    + destruct (proj1 (Hsame F ltac:(by left)) ltac:(by rewrite HF))
        as [FA' ->].
      destruct (Hcached F ltac:(by left) ltac:(by rewrite HF))
        as [cached ->].
      destruct (report_input_dep_coverage_data _ _) as [st| | |];
        simpl; try reflexivity.
      apply IH.
      * intros G HG. apply Hcached. by right.
      * intros G HG. apply Hsame. by right.
    + destruct (m_IDA' !! F) as [FA'|] eqn:HF'.
      * destruct (proj2 (Hsame F ltac:(by left)) ltac:(by rewrite HF'))
          as [? ?]. congruence.
      * apply IH.
        -- intros G HG. apply Hcached. by right.
        -- intros G HG. apply Hsame. by right.
Qed.

Lemma indep_coverage_loop_replay
    (m_IDA m_IDA' : InputDependencyAnalysisInfo)
    (functions : list Function) :
  ∀ s data,
    (∀ F, F ∈ functions → is_Some (m_IDA !! F) →
          is_Some (m_function_input_indep_coverage_data s !! F)) →
    (∀ F, F ∈ functions → is_Some (m_IDA !! F) ↔ is_Some (m_IDA' !! F)) →
    indep_coverage_loop Function_getName Function_blocks functions m_IDA' s
      data
    = indep_coverage_loop Function_getName Function_blocks functions m_IDA s
        data.
Proof.
  induction functions as [| F rest IH]; intros s data Hcached Hsame.
  - reflexivity.
  - simpl. destruct (m_IDA !! F) as [FA|] eqn:HF.
    + destruct (proj1 (Hsame F ltac:(by left)) ltac:(by rewrite HF))
        as [FA' ->].
      destruct (Hcached F ltac:(by left) ltac:(by rewrite HF))
        as [cached ->].
      destruct (report_input_indep_coverage_data _ _) as [st| | |];
        simpl; try reflexivity.
      apply IH.
      * intros G HG. apply Hcached. by right.
      * intros G HG. apply Hsame. by right.
    + destruct (m_IDA' !! F) as [FA'|] eqn:HF'.
      * destruct (proj2 (Hsame F ltac:(by left)) ltac:(by rewrite HF'))
          as [? ?]. congruence.
      * apply IH.
        -- intros G HG. apply Hcached. by right.
        -- intros G HG. apply Hsame. by right.
Qed.

(** A coverage report is answered from its cache. Once a report has
    returned, the same report against another analysis info with entries
    for the same functions of the module behaves as against the first one,
    whatever results (or null handles) the other analysis info holds: the
    results are not read again until [invalidate_stats_data] empties the
    caches. *)
Theorem coverage_reports_replay_cache (s s1 : statistics)
    (m_IDA m_IDA' : InputDependencyAnalysisInfo)
    (Hsame : ∀ F, F ∈ m_module →
               is_Some (m_IDA !! F) ↔ is_Some (m_IDA' !! F)) :
  (reportInputDepCoverage module_getName m_module Function_getName
     Function_blocks s m_IDA = Done s1 →
   reportInputDepCoverage module_getName m_module Function_getName
     Function_blocks s1 m_IDA'
   = reportInputDepCoverage module_getName m_module Function_getName
       Function_blocks s1 m_IDA)
  ∧ (reportInputInDepCoverage module_getName m_module Function_getName
       Function_blocks s m_IDA = Done s1 →
     reportInputInDepCoverage module_getName m_module Function_getName
       Function_blocks s1 m_IDA'
     = reportInputInDepCoverage module_getName m_module Function_getName
         Function_blocks s1 m_IDA)
  ∧ m_function_input_dep_coverage_data (invalidate_stats_data s1) = ∅
  ∧ m_function_input_indep_coverage_data (invalidate_stats_data s1) = ∅.
Proof.
  split_and!; [| | done | done].
  - intros Hrun.
    pose proof (coverage_reports_fill_caches_aux_dep _ _ _ Hrun) as Hc.
    unfold reportInputDepCoverage.
    rewrite (dep_coverage_loop_replay m_IDA m_IDA');
      [done | exact Hc | exact Hsame].
  - intros Hrun.
    pose proof (coverage_reports_fill_caches_aux_indep _ _ _ Hrun) as Hc.
    unfold reportInputInDepCoverage.
    rewrite (indep_coverage_loop_replay m_IDA m_IDA');
      [done | exact Hc | exact Hsame].
Qed.

End CoverageCaches.

(** A function of two blocks with two and one instructions. *)
Lemma get_function_instrs_count_total_witness :
  let i := llvm.mkInstruction 1 None in
  InputDependencyStatistics.get_function_instrs_count (λ _, [[i; i]; [i]])
    1%N = 3%Z.
Proof.
  intros i.
  apply (proj2 (get_function_instrs_count_total (λ _, [[i; i]; [i]]) 1%N)).
  simpl. lia.
Defined.

(** One dependent instruction out of four: the ratio is 25. *)
Lemma report_inputdepindep_data_ratio_witness :
  ∃ ratio st',
    InputDependencyStatisticsReports.report_inputdepindep_data
      (InputDependencyStatistics.mkStatistics None [])
      (InputDependencyStatisticsReports.mkInputdepindepData "f" 1 2 1)
    = InputDependencyStatisticsReports.Done st'
    ∧ ratio = 25%Z.
Proof.
  destruct (proj2 (report_inputdepindep_data_ratio
                     (InputDependencyStatistics.mkStatistics None [])
                     (InputDependencyStatisticsReports.mkInputdepindepData
                        "f" 1 2 1))
              ltac:(simpl; lia) ltac:(simpl; lia) ltac:(simpl; lia)
              ltac:(simpl; lia) ltac:(simpl; lia))
    as (ratio & Hrun & Hratio & _).
  exists ratio. eexists. split; [exact Hrun |].
  rewrite Hratio. reflexivity.
Defined.

(** The ratio report on a module of one function with one dependent and
    one independent instruction. *)
Lemma reportInputDepInputIndepRatio_module_sums_witness :
  let r :=
    InputDependencyStatisticsReports.mkFunctionAnalysisResult
      (InputDependencyResult.mkResult (λ _, true) (λ _, true) true 1 1 0)
      1 0 0 0 in
  let m_IDA :
    gmap llvm.Function
      (option InputDependencyStatisticsReports.FunctionAnalysisResult) :=
    {[ 1%N := Some r ]} in
  ∃ st',
    InputDependencyStatisticsReports.reportInputDepInputIndepRatio "m"
      [1%N] (λ _, "f") (InputDependencyStatistics.mkStatistics None [])
      m_IDA = InputDependencyStatisticsReports.Done st'
    ∧ InputDependencyStatistics.m_stats_type_name st' = None.
Proof.
  intros r m_IDA.
  destruct (InputDependencyStatisticsReports.reportInputDepInputIndepRatio
              "m" [1%N] (λ _, "f"%string)
              (InputDependencyStatistics.mkStatistics None []) m_IDA)
    as [st'| | |] eqn:Hrun; [| vm_compute in Hrun; discriminate ..].
  exists st'. split; [reflexivity |].
  exact (proj1 (reportInputDepInputIndepRatio_module_sums "m" [1%N]
                  (λ _, "f"%string) _ st' m_IDA Hrun)).
Defined.

(** The reports on a module whose only function is a declaration with no
    entry in the analysis info. *)
Lemma reports_divide_by_zero_witness :
  InputDependencyStatisticsReports.report "m" [1%N] (λ _, "f") (λ _, [])
    (InputDependencyStatisticsReports.mkStatisticsObject
       (InputDependencyStatistics.mkStatistics None []) ∅ ∅) ∅
  = InputDependencyStatisticsReports.DivisionByZero.
Proof.
  apply (reports_divide_by_zero "m" [1%N] (λ _, "f"%string) (λ _, [])).
  intros F _. apply lookup_empty.
Defined.

(** A dependent-coverage report on a module of one function of one block
    and two instructions: the function is cached afterwards. *)
Lemma coverage_reports_fill_caches_witness :
  let i := llvm.mkInstruction 1 None in
  let r :=
    InputDependencyStatisticsReports.mkFunctionAnalysisResult
      (InputDependencyResult.mkResult (λ _, true) (λ _, true) true 1 1 0)
      1 0 0 0 in
  let m_IDA :
    gmap llvm.Function
      (option InputDependencyStatisticsReports.FunctionAnalysisResult) :=
    {[ 1%N := Some r ]} in
  ∃ s',
    InputDependencyStatisticsReports.reportInputDepCoverage "m" [1%N]
      (λ _, "f") (λ _, [[i; i]])
      (InputDependencyStatisticsReports.mkStatisticsObject
         (InputDependencyStatistics.mkStatistics None []) ∅ ∅) m_IDA
    = InputDependencyStatisticsReports.Done s'
    ∧ is_Some
        (InputDependencyStatisticsReports.m_function_input_dep_coverage_data
           s' !! 1%N).
Proof.
  intros i r m_IDA.
  destruct (InputDependencyStatisticsReports.reportInputDepCoverage "m"
              [1%N] (λ _, "f"%string) (λ _, [[i; i]])
              (InputDependencyStatisticsReports.mkStatisticsObject
                 (InputDependencyStatistics.mkStatistics None []) ∅ ∅) m_IDA)
    as [s'| | |] eqn:Hrun; [| vm_compute in Hrun; discriminate ..].
  exists s'. split; [reflexivity |].
  apply (proj1 (proj2 (proj2
           (proj1 (coverage_reports_fill_caches "m" [1%N] (λ _, "f"%string)
                     (λ _, [[i; i]]) _ s' m_IDA) Hrun))) 1%N).
  - by left.
  - exists (Some r). apply lookup_singleton_eq.
Defined.

(** After a dependent-coverage report, the report against an analysis info
    that holds a null handle for the function does what the report against
    the first analysis info does. *)
Lemma coverage_reports_replay_cache_witness :
  let i := llvm.mkInstruction 1 None in
  let r :=
    InputDependencyStatisticsReports.mkFunctionAnalysisResult
      (InputDependencyResult.mkResult (λ _, true) (λ _, true) true 1 1 0)
      1 0 0 0 in
  let m_IDA :
    gmap llvm.Function
      (option InputDependencyStatisticsReports.FunctionAnalysisResult) :=
    {[ 1%N := Some r ]} in
  let m_IDA' :
    gmap llvm.Function
      (option InputDependencyStatisticsReports.FunctionAnalysisResult) :=
    {[ 1%N := None ]} in
  ∃ s1,
    InputDependencyStatisticsReports.reportInputDepCoverage "m" [1%N]
      (λ _, "f") (λ _, [[i; i]])
      (InputDependencyStatisticsReports.mkStatisticsObject
         (InputDependencyStatistics.mkStatistics None []) ∅ ∅) m_IDA
    = InputDependencyStatisticsReports.Done s1
    ∧ InputDependencyStatisticsReports.reportInputDepCoverage "m" [1%N]
        (λ _, "f") (λ _, [[i; i]]) s1 m_IDA'
      = InputDependencyStatisticsReports.reportInputDepCoverage "m" [1%N]
          (λ _, "f") (λ _, [[i; i]]) s1 m_IDA.
Proof.
  intros i r m_IDA m_IDA'.
  destruct (InputDependencyStatisticsReports.reportInputDepCoverage "m"
              [1%N] (λ _, "f"%string) (λ _, [[i; i]])
              (InputDependencyStatisticsReports.mkStatisticsObject
                 (InputDependencyStatistics.mkStatistics None []) ∅ ∅) m_IDA)
    as [s1| | |] eqn:Hrun; [| vm_compute in Hrun; discriminate ..].
  exists s1. split; [reflexivity |].
  apply (proj1 (coverage_reports_replay_cache "m" [1%N] (λ _, "f"%string)
                  (λ _, [[i; i]]) _ s1 m_IDA m_IDA'
                  ltac:(intros F ->%list_elem_of_singleton;
                        subst m_IDA m_IDA';
                        rewrite !lookup_singleton_eq;
                        split; eauto)) Hrun).
Defined.
